(** * Scrollbar: a shallow embedding of src/components/Scrollbar/index.tsx

    The component keeps a custom thumb in step with a scrollable content
    element.  Its handlers are embedded below as functions over

    - [number]: JavaScript numbers, as exact rationals extended with
      [Infinity], [-Infinity] and [NaN].  Arithmetic follows IEEE-754 for the
      special values (0/0 is NaN, x/0 is an infinity, NaN is contagious, ...)
      and is exact on finite values: binary64 rounding and overflow are
      idealised away, and zero carries no sign (every divisor the component
      uses is a DOM extent or the thumb height, never a negative zero);
    - [HTMLDivElement]: the properties of a DOM node that the component reads
      or writes;
    - [Scope]: the React state values a render makes visible to the closures
      it creates; a memoised callback is the scope of the render that created
      it;
    - [Scrollbar]: the mounted component (state, refs, memoised callbacks and
      the listeners its effects registered), driven by [dispatch];
    - [Binary64]: the arithmetic of lines 16, 31-32 and 51-55 as the engine
      evaluates it, in IEEE-754 binary64 with a rounding after every
      operation, for the properties that rounding decides. *)

From Stdlib Require Import QArith Qcanon Qround ZArith Lia Lqa List Bool.
From Stdlib Require Import SpecFloat.
Import ListNotations.

Local Open Scope Qc_scope.

(** ** JavaScript numbers *)

Module JS.

Inductive number : Type :=
| Num (q : Qc)
| Infinity
| NegInfinity
| NaN.

Definition Qc_of_Z (z : Z) : Qc := Q2Qc (inject_Z z).

(** Sign of a finite value, as a comparison with zero. *)
Definition sign (q : Qc) : comparison := q ?= 0.

Definition neg (a : number) : number :=
  match a with
  | Num p => Num (- p)
  | Infinity => NegInfinity
  | NegInfinity => Infinity
  | NaN => NaN
  end.

Definition add (a b : number) : number :=
  match a, b with
  | NaN, _ | _, NaN => NaN
  | Num p, Num q => Num (p + q)
  | Infinity, NegInfinity | NegInfinity, Infinity => NaN
  | Infinity, _ | _, Infinity => Infinity
  | NegInfinity, _ | _, NegInfinity => NegInfinity
  end.

Definition sub (a b : number) : number := add a (neg b).

(** An infinity scaled by a finite factor. *)
Definition scale_inf (positive : bool) (q : Qc) : number :=
  match sign q with
  | Eq => NaN
  | Gt => if positive then Infinity else NegInfinity
  | Lt => if positive then NegInfinity else Infinity
  end.

Definition mul (a b : number) : number :=
  match a, b with
  | NaN, _ | _, NaN => NaN
  | Num p, Num q => Num (p * q)
  | Infinity, Num q | Num q, Infinity => scale_inf true q
  | NegInfinity, Num q | Num q, NegInfinity => scale_inf false q
  | Infinity, Infinity | NegInfinity, NegInfinity => Infinity
  | Infinity, NegInfinity | NegInfinity, Infinity => NegInfinity
  end.

Definition div (a b : number) : number :=
  match a, b with
  | NaN, _ | _, NaN => NaN
  | Num p, Num q =>
      match sign q with
      | Eq => scale_inf true p            (* p / 0 *)
      | _ => Num (p / q)
      end
  | Num _, Infinity | Num _, NegInfinity => Num 0
  | Infinity, Num q =>
      match sign q with Lt => NegInfinity | _ => Infinity end
  | NegInfinity, Num q =>
      match sign q with Lt => Infinity | _ => NegInfinity end
  | _, _ => NaN                            (* infinity / infinity *)
  end.

(** [Math.min] and [Math.max]: NaN if either argument is NaN. *)
Definition Math_min (a b : number) : number :=
  match a, b with
  | NaN, _ | _, NaN => NaN
  | NegInfinity, _ | _, NegInfinity => NegInfinity
  | Infinity, x | x, Infinity => x
  | Num p, Num q => match p ?= q with Gt => Num q | _ => Num p end
  end.

Definition Math_max (a b : number) : number :=
  match a, b with
  | NaN, _ | _, NaN => NaN
  | Infinity, _ | _, Infinity => Infinity
  | NegInfinity, x | x, NegInfinity => x
  | Num p, Num q => match p ?= q with Lt => Num q | _ => Num p end
  end.

Definition Math_floor (a : number) : number :=
  match a with
  | Num p => Num (Qc_of_Z (Qfloor p))
  | x => x
  end.

(** The relational operator [<]; false whenever an operand is NaN. *)
Definition ltb (a b : number) : bool :=
  match a, b with
  | NaN, _ | _, NaN => false
  | Num p, Num q => match p ?= q with Lt => true | _ => false end
  | NegInfinity, NegInfinity => false
  | NegInfinity, _ => true
  | _, NegInfinity => false
  | Infinity, _ => false
  | _, Infinity => true
  end.

(** [Object.is] on numbers (the comparison React applies to dependency
    lists): NaN is equal to itself. *)
Definition Object_is (a b : number) : bool :=
  match a, b with
  | Num p, Num q => Qc_eq_bool p q
  | Infinity, Infinity | NegInfinity, NegInfinity | NaN, NaN => true
  | _, _ => false
  end.

End JS.

Import JS.

Declare Scope js_scope.
Delimit Scope js_scope with js.
Bind Scope js_scope with number.
Infix "+" := add : js_scope.
Infix "-" := sub : js_scope.
Infix "*" := mul : js_scope.
Infix "/" := div : js_scope.
Notation "- x" := (neg x) : js_scope.
Infix "<?" := ltb : js_scope.

(** Integer literals of the source. *)
Definition lit (z : Z) : number := Num (Qc_of_Z z).

(** ** The DOM surfaces *)

Inductive ScrollBehavior := smooth | instant.

(** Requests a handler sends to an element.  What the browser does with a
    request (clamping a written offset to the scrollable range, animating a
    smooth scroll, firing [scroll]) happens outside the component and is not
    modelled: the element records what it was asked, latest first. *)
Inductive Request :=
| scrollBy (top : number) (behavior : ScrollBehavior)
| scrollTo (top : number) (behavior : ScrollBehavior)
| assign_scrollTop (value : number).

Record HTMLDivElement := {
  scrollTop : number;
  scrollHeight : number;
  clientHeight : number;
  offsetHeight : number;
  rect_top : number;              (* getBoundingClientRect().top *)
  style_top : option number;      (* style.top, in px; None until written *)
  requests : list Request
}.

Definition set_style_top (v : number) (el : HTMLDivElement) : HTMLDivElement :=
  {| scrollTop := scrollTop el; scrollHeight := scrollHeight el;
     clientHeight := clientHeight el; offsetHeight := offsetHeight el;
     rect_top := rect_top el; style_top := Some v;
     requests := requests el |}.

Definition request (rq : Request) (el : HTMLDivElement) : HTMLDivElement :=
  {| scrollTop := scrollTop el; scrollHeight := scrollHeight el;
     clientHeight := clientHeight el; offsetHeight := offsetHeight el;
     rect_top := rect_top el; style_top := style_top el;
     requests := rq :: requests el |}.

(** The three [useRef] cells; [None] is a [null] [current]. *)
Record Refs := {
  contentRef : option HTMLDivElement;
  scrollTrackRef : option HTMLDivElement;
  scrollThumbRef : option HTMLDivElement
}.

Definition set_contentRef (el : HTMLDivElement) (r : Refs) : Refs :=
  {| contentRef := Some el; scrollTrackRef := scrollTrackRef r;
     scrollThumbRef := scrollThumbRef r |}.

Definition set_scrollThumbRef (el : HTMLDivElement) (r : Refs) : Refs :=
  {| contentRef := contentRef r; scrollTrackRef := scrollTrackRef r;
     scrollThumbRef := Some el |}.

Record MouseEvent := {
  clientY : number;
  target : HTMLDivElement
}.

(** ** React state *)

(** The four [useState] values, as one render sees them. *)
Record Scope := {
  thumbHeight : number;
  scrollStartPosition : option number;
  initialScrollTop : number;
  isDragging : bool
}.

Definition initial_scope : Scope :=
  {| thumbHeight := lit 20; scrollStartPosition := None;
     initialScrollTop := lit 0; isDragging := false |}.

Definition setThumbHeight (v : number) (s : Scope) : Scope :=
  {| thumbHeight := v; scrollStartPosition := scrollStartPosition s;
     initialScrollTop := initialScrollTop s; isDragging := isDragging s |}.

Definition setScrollStartPosition (v : number) (s : Scope) : Scope :=
  {| thumbHeight := thumbHeight s; scrollStartPosition := Some v;
     initialScrollTop := initialScrollTop s; isDragging := isDragging s |}.

Definition setInitialScrollTop (v : number) (s : Scope) : Scope :=
  {| thumbHeight := thumbHeight s; scrollStartPosition := scrollStartPosition s;
     initialScrollTop := v; isDragging := isDragging s |}.

Definition setIsDragging (b : bool) (s : Scope) : Scope :=
  {| thumbHeight := thumbHeight s; scrollStartPosition := scrollStartPosition s;
     initialScrollTop := initialScrollTop s; isDragging := b |}.

(** ** Completions *)

(** A handler either returns or throws; the only exception the component can
    raise is the [TypeError] of reading a property of [null]. *)
Inductive completion (A : Type) : Type :=
| Normal (a : A)
| TypeError.
Arguments Normal {A} a.
Arguments TypeError {A}.

Definition bind {A B} (c : completion A) (k : A -> completion B) : completion B :=
  match c with
  | Normal a => k a
  | TypeError => TypeError
  end.

(** ** The handlers

    Each handler takes the scope it closes over as [env].  The calls to
    [preventDefault] and [stopPropagation] only affect how the browser routes
    the event and leave every modelled surface alone. *)

Local Open Scope js_scope.

Inductive Direction := up | down.

(* lines 14-17 *)
Definition handleResize (ref : HTMLDivElement) (trackSize : number)
    (state : Scope) : Scope :=
  setThumbHeight
    (Math_max ((clientHeight ref / scrollHeight ref) * trackSize) (lit 20))
    state.

(* lines 19-25 *)
Definition handleScrollButton (direction : Direction) (r : Refs) : Refs :=
  match contentRef r with
  | Some current =>
      let scrollAmount :=
        match direction with down => lit 200 | up => lit (-200) end in
      set_contentRef (request (scrollBy scrollAmount smooth) current) r
  | None => r
  end.

(* lines 27-35 *)
Definition handleThumbPosition (env : Scope) (r : Refs) : Refs :=
  match contentRef r, scrollThumbRef r, scrollTrackRef r with
  | Some content, Some thumb, Some track =>
      let contentTop := scrollTop content in
      let contentHeight := scrollHeight content in
      let trackHeight := clientHeight track in
      let newTop := (contentTop / contentHeight) * trackHeight in
      let newTop := Math_min newTop (trackHeight - thumbHeight env) in
      set_scrollThumbRef (set_style_top newTop thumb) r
  | _, _, _ => r
  end.

(* lines 37-64 *)
Definition handleTrackClick (env : Scope) (e : MouseEvent) (r : Refs) : Refs :=
  match scrollTrackRef r, contentRef r with
  | Some trackCurrent, Some contentCurrent =>
      let rect := target e in            (* getBoundingClientRect() *)
      let trackTop := rect_top rect in
      let thumbOffset := - (thumbHeight env / lit 2) in
      let clickRatio :=
        (clientY e - trackTop + thumbOffset) / clientHeight trackCurrent in
      let scrollAmount := Math_floor (clickRatio * scrollHeight contentCurrent) in
      set_contentRef (request (scrollTo scrollAmount smooth) contentCurrent) r
  | _, _ => r
  end.

(* lines 66-72 *)
Definition handleThumbMousedown (e : MouseEvent) (r : Refs)
    (state : Scope) : Scope :=
  let state := setScrollStartPosition (clientY e) state in
  let state :=
    match contentRef r with
    | Some current => setInitialScrollTop (scrollTop current) state
    | None => state
    end in
  setIsDragging true state.

(* lines 74-83 *)
Definition handleThumbMouseup (env : Scope) (state : Scope) : Scope :=
  if isDragging env then setIsDragging false state else state.

(** [scrollStartPosition!]: the assertion is erased at run time, and [null]
    converts to 0 in a subtraction. *)
Definition non_null_number (v : option number) : number :=
  match v with Some n => n | None => lit 0 end.

(** [deltaY] (line 93) and [newScrollTop] (line 94) of the drag handler. *)
Definition deltaY (env : Scope) (e : MouseEvent)
    (content : HTMLDivElement) : number :=
  let contentOffsetHeight := offsetHeight content in
  (clientY e - non_null_number (scrollStartPosition env))
  * (contentOffsetHeight / thumbHeight env).

Definition newScrollTop (env : Scope) (e : MouseEvent)
    (content : HTMLDivElement) : number :=
  let contentScrollHeight := scrollHeight content in
  let contentOffsetHeight := offsetHeight content in
  Math_min (initialScrollTop env + deltaY env e content)
           (contentScrollHeight - contentOffsetHeight).

(* lines 85-99 *)
Definition handleThumbMouseMove (env : Scope) (e : MouseEvent) (r : Refs)
    : completion Refs :=
  if isDragging env then
    match contentRef r with
    | None => TypeError                   (* destructuring [null] *)
    | Some content =>
        Normal (set_contentRef
                  (request (assign_scrollTop (newScrollTop env e content)) content)
                  r)
    end
  else Normal r.

(** ** The mounted component *)

(** [useCallback]: the closure of an earlier render is kept as long as the
    dependency list compares equal under [Object.is]. *)
Definition useCallback (same_deps : Scope -> Scope -> bool)
    (previous : option Scope) (current : Scope) : Scope :=
  match previous with
  | Some p => if same_deps p current then p else current
  | None => current
  end.

Definition option_is (a b : option number) : bool :=
  match a, b with
  | Some x, Some y => Object_is x y
  | None, None => true
  | _, _ => false
  end.

(** The dependency lists of lines 35, 63, 82 and 98. *)
Definition deps_handleThumbPosition (_ _ : Scope) : bool := true.
Definition deps_handleTrackClick (p c : Scope) : bool :=
  Object_is (thumbHeight p) (thumbHeight c).
Definition deps_handleThumbMouseup (p c : Scope) : bool :=
  Bool.eqb (isDragging p) (isDragging c).
Definition deps_handleThumbMouseMove (p c : Scope) : bool :=
  Bool.eqb (isDragging p) (isDragging c)
  && option_is (scrollStartPosition p) (scrollStartPosition c)
  && Object_is (thumbHeight p) (thumbHeight c).

(** The memoised callbacks that read state; each is the scope it closed
    over.  ([handleThumbMousedown] reads no state.) *)
Record Callbacks := {
  cb_handleThumbPosition : Scope;
  cb_handleTrackClick : Scope;
  cb_handleThumbMouseup : Scope;
  cb_handleThumbMouseMove : Scope
}.

Definition render (previous : option Callbacks) (state : Scope) : Callbacks :=
  {| cb_handleThumbPosition :=
       useCallback deps_handleThumbPosition
         (option_map cb_handleThumbPosition previous) state;
     cb_handleTrackClick :=
       useCallback deps_handleTrackClick
         (option_map cb_handleTrackClick previous) state;
     cb_handleThumbMouseup :=
       useCallback deps_handleThumbMouseup
         (option_map cb_handleThumbMouseup previous) state;
     cb_handleThumbMouseMove :=
       useCallback deps_handleThumbMouseMove
         (option_map cb_handleThumbMouseMove previous) state |}.

Record Scrollbar := {
  state : Scope;
  refs : Refs;
  callbacks : Callbacks;
  (* the mount effect (lines 102-116): the ResizeObserver with the
     [trackSize] it captured, and the closure added as scroll listener *)
  observer : option number;
  scroll_listener : option Scope
}.

(** First render and the mount effect.  The document listeners of the second
    effect (lines 118-127) are re-registered whenever their callback changes,
    so they are always [cb_handleThumbMouseMove] and [cb_handleThumbMouseup]
    of [callbacks]. *)
Definition mount (r : Refs) : Scrollbar :=
  let cbs := render None initial_scope in
  match contentRef r, scrollTrackRef r with
  | Some ref, Some track =>
      {| state := initial_scope; refs := r; callbacks := cbs;
         observer := Some (clientHeight track);
         scroll_listener := Some (cb_handleThumbPosition cbs) |}
  | _, _ =>
      {| state := initial_scope; refs := r; callbacks := cbs;
         observer := None; scroll_listener := None |}
  end.

(** A state update followed by the re-render it causes. *)
Definition set_state (s : Scope) (c : Scrollbar) : Scrollbar :=
  {| state := s; refs := refs c;
     callbacks := render (Some (callbacks c)) s;
     observer := observer c; scroll_listener := scroll_listener c |}.

Definition set_refs (r : Refs) (c : Scrollbar) : Scrollbar :=
  {| state := state c; refs := r; callbacks := callbacks c;
     observer := observer c; scroll_listener := scroll_listener c |}.

Inductive Event :=
| scroll                          (* 'scroll' on the content element *)
| resize                          (* a ResizeObserver notification *)
| click_track (e : MouseEvent)
| click_button (d : Direction)
| mousedown_thumb (e : MouseEvent)
| mousemove (e : MouseEvent)      (* on the document *)
| mouseup                         (* 'mouseup' or 'mouseleave' on the document *)
| browser (r : Refs).             (* layout, scrolling, nodes attached or detached *)

Definition dispatch (ev : Event) (c : Scrollbar) : completion Scrollbar :=
  match ev with
  | scroll =>
      match scroll_listener c with
      | Some env => Normal (set_refs (handleThumbPosition env (refs c)) c)
      | None => Normal c
      end
  | resize =>
      (* the observer's [ref] is the node [contentRef] holds *)
      match observer c, contentRef (refs c) with
      | Some trackSize, Some ref =>
          Normal (set_state (handleResize ref trackSize (state c)) c)
      | _, _ => Normal c
      end
  | click_track e =>
      Normal (set_refs
                (handleTrackClick (cb_handleTrackClick (callbacks c)) e (refs c)) c)
  | click_button d => Normal (set_refs (handleScrollButton d (refs c)) c)
  | mousedown_thumb e =>
      Normal (set_state (handleThumbMousedown e (refs c) (state c)) c)
  | mousemove e =>
      bind (handleThumbMouseMove (cb_handleThumbMouseMove (callbacks c)) e (refs c))
           (fun r => Normal (set_refs r c))
  | mouseup =>
      Normal (set_state
                (handleThumbMouseup (cb_handleThumbMouseup (callbacks c)) (state c)) c)
  | browser r => Normal (set_refs r c)
  end.

Fixpoint run (evs : list Event) (c : Scrollbar) : completion Scrollbar :=
  match evs with
  | [] => Normal c
  | ev :: rest => bind (dispatch ev c) (run rest)
  end.

(** The components an event history can produce from a mount. *)
Definition reachable (c : Scrollbar) : Prop :=
  exists r0 evs, run evs (mount r0) = Normal c.

(** ** Binary64 evaluation

    The handlers above compute on [number], exactly.  The engine computes in
    IEEE-754 binary64 and rounds to nearest-even after each operation; the
    two agree up to that rounding, and differ where an exact equality or a
    floor is taken.  This module evaluates the three arithmetic expressions
    of the component in binary64, on the format of the standard library's
    [SpecFloat]. *)

Module Binary64.

Local Open Scope Z_scope.

Definition prec : Z := 53.
Definition emax : Z := 1024.

Definition float : Type := spec_float.

(** An integer as a binary64 value (exact below [2 ^ 53]). *)
Definition of_Z (z : Z) : float := binary_normalize prec emax z 0 false.

Definition add : float -> float -> float := SFadd prec emax.
Definition sub : float -> float -> float := SFsub prec emax.
Definition mul : float -> float -> float := SFmul prec emax.
Definition div : float -> float -> float := SFdiv prec emax.
Definition neg : float -> float := SFopp.

Definition is_neg_zero (x : float) : bool :=
  match x with
  | S754_zero true => true
  | _ => false
  end.

(** [Math.min] and [Math.max]: NaN if either argument is NaN, and [-0] below
    [+0]. *)
Definition Math_min (a b : float) : float :=
  match SFcompare a b with
  | None => S754_nan
  | Some Lt => a
  | Some Gt => b
  | Some Eq => if is_neg_zero b then b else a
  end.

Definition Math_max (a b : float) : float :=
  match SFcompare a b with
  | None => S754_nan
  | Some Gt => a
  | Some Lt => b
  | Some Eq => if is_neg_zero a then b else a
  end.

(** [Math.floor]: a value with a fractional part is [m * 2 ^ e] with
    [e < 0]; shifting [m] right by [- e] rounds towards minus infinity. *)
Definition Math_floor (x : float) : float :=
  match x with
  | S754_finite s m e =>
      if e <? 0
      then binary_normalize prec emax
             (Z.shiftr (cond_Zopp s (Zpos m)) (- e)) 0 s
      else x
  | _ => x
  end.


(** Lines 31-32: [newTop], for the [thumbHeight] of the handler's scope. *)
Definition newTop (contentTop contentHeight trackHeight thumbHeight : float)
    : float :=
  let newTop := mul (div contentTop contentHeight) trackHeight in
  Math_min newTop (sub trackHeight thumbHeight).

(** Lines 51-55: [scrollAmount]. *)
Definition scrollAmount
    (clientY trackTop thumbHeight trackHeight scrollHeight : float) : float :=
  let thumbOffset := neg (div thumbHeight (of_Z 2)) in
  let clickRatio := div (add (sub clientY trackTop) thumbOffset) trackHeight in
  Math_floor (mul clickRatio scrollHeight).

End Binary64.

(** ** The formulas of the specification

    Written over the rationals, as the specification states them; the
    theorems below compare the handlers with these. *)

Module Spec.

Local Open Scope Qc_scope.

Definition Qcmin (a b : Qc) : Qc := match a ?= b with Gt => b | _ => a end.
Definition Qcmax (a b : Qc) : Qc := match a ?= b with Lt => b | _ => a end.

Definition MIN_THUMB : Qc := Qc_of_Z 20.

(** [x] clamped to the interval [[lo, hi]]. *)
Definition clamp (lo hi x : Qc) : Qc := Qcmax lo (Qcmin x hi).

Definition contentOffsetToTrackOffset
    (scrollTop scrollHeight trackHeight thumbHeight : Qc) : Qc :=
  clamp 0 (trackHeight - thumbHeight) (scrollTop / scrollHeight * trackHeight).

Definition trackClickToContentOffset
    (clickY trackTop trackHeight thumbHeight scrollHeight : Qc) : Qc :=
  Qc_of_Z
    (Qfloor (((clickY - trackTop) - thumbHeight / Qc_of_Z 2) / trackHeight
             * scrollHeight)%Qc).

Definition computeThumbHeight (clientHeight scrollHeight trackHeight : Qc) : Qc :=
  Qcmax (clientHeight / scrollHeight * trackHeight) MIN_THUMB.

(** The drag scale law, with the visible extent the specification names. *)
Definition dragDelta (pointerY startPointerY clientHeight thumbHeight : Qc) : Qc :=
  (pointerY - startPointerY) * (clientHeight / thumbHeight).

End Spec.

(** ** Test fixtures *)

(** An element with integer geometry, nothing written to it yet. *)
Definition element (scrollTop scrollHeight clientHeight offsetHeight top : Z)
    : HTMLDivElement :=
  {| scrollTop := lit scrollTop; scrollHeight := lit scrollHeight;
     clientHeight := lit clientHeight; offsetHeight := lit offsetHeight;
     rect_top := lit top; style_top := None; requests := [] |}.

(** A borderless block of the given height that does not scroll. *)
Definition block (height top : Z) : HTMLDivElement :=
  element 0 height height height top.

Definition mounted (content track thumb : HTMLDivElement) : Refs :=
  {| contentRef := Some content; scrollTrackRef := Some track;
     scrollThumbRef := Some thumb |}.

(** What a component's thumb shows: the top last written to it. *)
Definition thumb_top (c : Scrollbar) : option number :=
  match scrollThumbRef (refs c) with
  | Some thumb => style_top thumb
  | None => None
  end.

(** The requests the content element has received. *)
Definition content_requests (r : Refs) : list Request :=
  match contentRef r with
  | Some content => requests content
  | None => []
  end.

Definition unmounted : Refs :=
  {| contentRef := None; scrollTrackRef := None; scrollThumbRef := None |}.

(** A pointer event at height [y] over the element [el]. *)
Definition pointer (y : Z) (el : HTMLDivElement) : MouseEvent :=
  {| clientY := lit y; target := el |}.

(** The scope of a drag handler: a session begun at pointer height [start]
    and scroll offset [initial], with thumb height [h]. *)
Definition dragging (start initial h : Z) : Scope :=
  {| thumbHeight := lit h; scrollStartPosition := Some (lit start);
     initialScrollTop := lit initial; isDragging := true |}.

(** The component an event history leaves behind (the freshly mounted one if
    the history throws). *)
Definition after (evs : list Event) (r0 : Refs) : Scrollbar :=
  match run evs (mount r0) with
  | Normal c => c
  | TypeError => mount r0
  end.

(** What holds of the callbacks of every component an event history can
    produce: the scroll-sync closure is the one of the first render, the
    others agree with the current state on their dependencies. *)
Record callbacks_inv (c : Scrollbar) : Prop := {
  inv_thumbPosition : cb_handleThumbPosition (callbacks c) = initial_scope;
  inv_listener : forall env, scroll_listener c = Some env -> env = initial_scope;
  inv_trackClick :
    thumbHeight (cb_handleTrackClick (callbacks c)) = thumbHeight (state c);
  inv_mouseup :
    isDragging (cb_handleThumbMouseup (callbacks c)) = isDragging (state c);
  inv_mouseMove :
    let env := cb_handleThumbMouseMove (callbacks c) in
    isDragging env = isDragging (state c)
    /\ scrollStartPosition env = scrollStartPosition (state c)
    /\ thumbHeight env = thumbHeight (state c)
}.

(** ** Event histories *)

(** Events that leave the content node attached. *)
Definition keeps_content (ev : Event) : bool :=
  match ev with
  | browser r => match contentRef r with Some _ => true | None => false end
  | _ => true
  end.

(** Events other than a press on the thumb. *)
Definition not_mousedown (ev : Event) : bool :=
  match ev with
  | mousedown_thumb _ => false
  | _ => true
  end.

(** The thumb heights the state can hold: a finite height of at least 20,
    Infinity or NaN. *)
Definition thumbHeight_ok (v : number) : Prop :=
  match v with
  | Num h => Qc_of_Z 20 <= h
  | NegInfinity => False
  | Infinity | NaN => True
  end.

(** A page used in examples: a content of 1000 showing 200, scrolled to 400,
    beside a track of 300. *)
Definition page : Refs :=
  mounted (element 400 1000 200 200 0) (block 300 0) (block 20 0).

(** ** Proof automation *)

(** Linear facts on [Qc], through [Q]. *)
Ltac qc_lra :=
  unfold Qcle, Qclt, Qcminus, Qcplus, Qcopp, Qc_of_Z, Q2Qc, inject_Z in *;
  cbn [this] in *; rewrite ?Qred_correct in *; lra.

(** Closed equations between rationals, by evaluation. *)
Ltac qc_eval := apply Qc_is_canon; vm_compute; reflexivity.

(** Closed equations between values written by a handler, by evaluation. *)
Ltac js_eval :=
  solve [ vm_compute;
          repeat match goal with
                 | |- Some _ = Some _ => apply f_equal
                 | |- Normal _ = Normal _ => apply f_equal
                 | |- Num _ = Num _ => apply f_equal, Qc_is_canon; vm_compute; reflexivity
                 | |- _ => reflexivity
                 end ].

(** * Properties *)

Local Open Scope Qc_scope.

(** ** Rational arithmetic *)

Lemma Num_Qeq (p q : Qc) : (p == q)%Q -> Num p = Num q.
Proof. intros H. f_equal. now apply Qc_is_canon. Qed.

Lemma sign_pos (q : Qc) : 0 < q -> sign q = Gt.
Proof. intros H. unfold sign. now apply Qcgt_alt. Qed.

Lemma Qc_pos_neq (q : Qc) : 0 < q -> q <> 0.
Proof. intros H E. subst q. revert H. apply Qcle_not_lt, Qcle_refl. Qed.

Lemma Qcmin_spec (a b : Qc) :
  (a <= b /\ Spec.Qcmin a b = a) \/ (b < a /\ Spec.Qcmin a b = b).
Proof.
  unfold Spec.Qcmin. destruct (a ?= b) eqn:E.
  - left. split; [|reflexivity]. apply Qceq_alt in E. subst. apply Qcle_refl.
  - left. split; [|reflexivity]. apply Qclt_le_weak. now apply Qclt_alt.
  - right. split; [|reflexivity]. now apply Qcgt_alt in E.
Qed.

Lemma Qcmax_spec (a b : Qc) :
  (a < b /\ Spec.Qcmax a b = b) \/ (b <= a /\ Spec.Qcmax a b = a).
Proof.
  unfold Spec.Qcmax. destruct (a ?= b) eqn:E.
  - right. split; [|reflexivity]. apply Qceq_alt in E. subst. apply Qcle_refl.
  - left. split; [|reflexivity]. now apply Qclt_alt.
  - right. split; [|reflexivity]. apply Qclt_le_weak. now apply Qcgt_alt in E.
Qed.

Lemma Math_min_Num (p q : Qc) : Math_min (Num p) (Num q) = Num (Spec.Qcmin p q).
Proof. unfold Math_min, Spec.Qcmin. now destruct (p ?= q). Qed.

Lemma Math_max_Num (p q : Qc) : Math_max (Num p) (Num q) = Num (Spec.Qcmax p q).
Proof. unfold Math_max, Spec.Qcmax. now destruct (p ?= q). Qed.

Lemma div_Num (p q : Qc) : q <> 0 -> (Num p / Num q)%js = Num (p / q).
Proof.
  intros H. unfold div, sign. destruct (q ?= 0) eqn:E; try reflexivity.
  apply Qceq_alt in E. contradiction.
Qed.

Lemma sub_Num (p q : Qc) : (Num p - Num q)%js = Num (p - q).
Proof. reflexivity. Qed.

Lemma Qcdiv_pos (a b : Qc) : 0 < a -> 0 < b -> 0 < a / b.
Proof.
  intros Ha Hb. unfold Qclt, Qcdiv, Qcmult, Qcinv, Q2Qc in *. cbn [this] in *.
  rewrite !Qred_correct.
  apply Qmult_lt_0_compat; [assumption|]. now apply Qinv_lt_0_compat.
Qed.

(** ** Memoisation: which state each callback sees *)

Lemma Object_is_eq (a b : number) : Object_is a b = true -> a = b.
Proof.
  destruct a, b; simpl; try discriminate; try reflexivity.
  intros H. f_equal. now apply Qc_eq_bool_correct.
Qed.

Lemma option_is_eq (a b : option number) : option_is a b = true -> a = b.
Proof.
  destruct a, b; simpl; try discriminate; try reflexivity.
  intros H. f_equal. now apply Object_is_eq.
Qed.

Lemma mount_inv (r : Refs) : callbacks_inv (mount r).
Proof.
  unfold mount.
  destruct (contentRef r), (scrollTrackRef r);
    (split; cbn; [reflexivity | intros env H; now inversion H
                 | reflexivity | reflexivity | now repeat split ]).
Qed.

Lemma set_refs_inv (r : Refs) (c : Scrollbar) :
  callbacks_inv c -> callbacks_inv (set_refs r c).
Proof. intros [H1 H2 H3 H4 H5]. split; assumption. Qed.

Lemma set_state_inv (s : Scope) (c : Scrollbar) :
  callbacks_inv c -> callbacks_inv (set_state s c).
Proof.
  intros [H1 H2 H3 H4 H5]. split; cbn.
  - exact H1.
  - exact H2.
  - unfold deps_handleTrackClick.
    destruct (Object_is _ _) eqn:E; [now apply Object_is_eq | reflexivity].
  - unfold deps_handleThumbMouseup.
    destruct (Bool.eqb _ _) eqn:E; [now apply Bool.eqb_prop | reflexivity].
  - unfold deps_handleThumbMouseMove.
    destruct (_ && _)%bool eqn:E; [| now repeat split].
    apply andb_prop in E as [E E3]. apply andb_prop in E as [E1 E2].
    repeat split;
      [now apply Bool.eqb_prop | now apply option_is_eq | now apply Object_is_eq].
Qed.

Lemma dispatch_inv (ev : Event) (c c' : Scrollbar) :
  callbacks_inv c -> dispatch ev c = Normal c' -> callbacks_inv c'.
Proof.
  intros Hc H. destruct ev; cbn in H.
  - destruct (scroll_listener c); inversion H; subst;
      auto using set_refs_inv.
  - destruct (observer c), (contentRef (refs c)); inversion H; subst;
      auto using set_state_inv.
  - inversion H; subst. now apply set_refs_inv.
  - inversion H; subst. now apply set_refs_inv.
  - inversion H; subst. now apply set_state_inv.
  - destruct (handleThumbMouseMove _ _ _); inversion H; subst.
    now apply set_refs_inv.
  - inversion H; subst. now apply set_state_inv.
  - inversion H; subst. now apply set_refs_inv.
Qed.

Lemma run_inv (evs : list Event) :
  forall c c', callbacks_inv c -> run evs c = Normal c' -> callbacks_inv c'.
Proof.
  induction evs as [|ev rest IH]; intros c c' Hc H; cbn in H.
  - now inversion H; subst.
  - destruct (dispatch ev c) as [c1|] eqn:E; [|discriminate].
    cbn in H. eapply IH; [|exact H]. eapply dispatch_inv; eassumption.
Qed.

Lemma reachable_inv (c : Scrollbar) : reachable c -> callbacks_inv c.
Proof.
  intros (r0 & evs & H). eapply run_inv; [apply mount_inv | exact H].
Qed.

Lemma reachable_listener (c : Scrollbar) (env : Scope) :
  reachable c -> scroll_listener c = Some env -> thumbHeight env = lit 20.
Proof.
  intros Hc H. apply reachable_inv in Hc.
  now rewrite (inv_listener c Hc env H).
Qed.

(** ** Scroll-sync *)

Lemma reachable_run (r0 : Refs) (evs : list Event) (c : Scrollbar) :
  run evs (mount r0) = Normal c -> reachable c.
Proof. intros H. now exists r0, evs. Qed.

Lemma reachable_after (evs : list Event) (r0 : Refs) : reachable (after evs r0).
Proof.
  unfold after. destruct (run evs (mount r0)) as [c|] eqn:E.
  - now apply (reachable_run r0 evs).
  - now apply (reachable_run r0 []).
Qed.

(** With the three surfaces mounted and a measured content, the handler
    writes the proportional offset, bounded above by the track height less
    the thumb height of its own scope. *)
Lemma handleThumbPosition_mounted env content track thumb (st sh t h : Qc) :
  0 < sh ->
  scrollTop content = Num st -> scrollHeight content = Num sh ->
  clientHeight track = Num t -> thumbHeight env = Num h ->
  handleThumbPosition env (mounted content track thumb)
  = mounted content track
      (set_style_top (Num (Spec.Qcmin (st / sh * t) (t - h))) thumb).
Proof.
  intros Hsh Hst Hs Ht Hh. unfold handleThumbPosition, mounted; cbn.
  rewrite Hst, Hs, Ht, Hh, div_Num by now apply Qc_pos_neq.
  cbn [mul]. rewrite sub_Num, Math_min_Num. reflexivity.
Qed.

Lemma dispatch_scroll_mounted c env content track thumb (st sh t : Qc) :
  reachable c -> scroll_listener c = Some env ->
  refs c = mounted content track thumb ->
  0 < sh ->
  scrollTop content = Num st -> scrollHeight content = Num sh ->
  clientHeight track = Num t ->
  exists c',
    dispatch scroll c = Normal c'
    /\ state c' = state c
    /\ thumb_top c'
       = Some (Num (Spec.Qcmin (st / sh * t) (t - Qc_of_Z 20))).
Proof.
  intros Hc Hl Hr Hsh Hst Hs Ht.
  pose proof (reachable_listener c env Hc Hl) as Hh.
  eexists. split; [|split].
  - cbn. rewrite Hl, Hr. reflexivity.
  - reflexivity.
  - unfold thumb_top. cbn [refs set_refs].
    rewrite (handleThumbPosition_mounted env content track thumb st sh t
               (Qc_of_Z 20)) by assumption.
    reflexivity.
Qed.


Lemma proportional_offset_mono (y z s t : Qc) :
  0 < s -> 0 < t -> y <= z -> y / s * t <= z / s * t.
Proof.
  intros Hs Ht Hyz. apply Qcmult_le_compat_r; [|now apply Qclt_le_weak].
  unfold Qcdiv. apply Qcmult_le_compat_r; [assumption|].
  apply Qclt_le_weak.
  replace (/ s) with (1 / s) by (field; now apply Qc_pos_neq).
  apply Qcdiv_pos; [reflexivity | assumption].
Qed.

Lemma proportional_offset_nonneg (y s t : Qc) :
  0 < s -> 0 < t -> 0 <= y -> 0 <= y / s * t.
Proof.
  intros Hs Ht Hy.
  replace 0 with (0 / s * t) by (field; now apply Qc_pos_neq).
  now apply proportional_offset_mono.
Qed.

(** C1 (as amended).  With a measured content ([scrollHeight > 0]) and a
    track of positive height, the scroll-sync handler writes
    [min ((scrollTop / scrollHeight) * trackHeight, trackHeight - h)] as the
    thumb top, [h] being the thumb height of the scope the handler closed
    over.  It applies no lower bound; the value is the clamp to
    [[0, trackHeight - h]] whenever [scrollTop >= 0] and [h <= trackHeight].
    For scrollHeight 1000, clientHeight 200, trackHeight 300, scrollTop 400
    and [h < 180] the thumb top is 120. *)
Theorem scroll_sync_top env content track thumb (st sh t h : Qc) :
  0 < sh -> 0 < t ->
  scrollTop content = Num st -> scrollHeight content = Num sh ->
  clientHeight track = Num t -> thumbHeight env = Num h ->
  let top (r : Refs) := option_map style_top (scrollThumbRef r) in
  top (handleThumbPosition env (mounted content track thumb))
    = Some (Some (Num (Spec.Qcmin (st / sh * t) (t - h))))
  /\ (0 <= st -> h <= t ->
      Spec.Qcmin (st / sh * t) (t - h)
      = Spec.contentOffsetToTrackOffset st sh t h)
  /\ (h < Qc_of_Z 180 ->
      top (handleThumbPosition env
             (mounted (element 400 1000 200 200 0) (block 300 0) thumb))
      = Some (Some (lit 120))).
Proof.
  intros Hsh Ht Hst Hs Htr Hh top. repeat split.
  - unfold top.
    rewrite (handleThumbPosition_mounted env content track thumb st sh t h)
      by assumption.
    reflexivity.
  - intros Hst0 Hht.
    unfold Spec.contentOffsetToTrackOffset, Spec.clamp.
    pose proof (proportional_offset_nonneg st sh t Hsh Ht Hst0) as Hx.
    destruct (Qcmin_spec (st / sh * t) (t - h)) as [[_ E]|[_ E]]; rewrite E;
      [destruct (Qcmax_spec 0 (st / sh * t)) as [[H E']|[H E']]
      |destruct (Qcmax_spec 0 (t - h)) as [[H E']|[H E']]];
      rewrite E'; try reflexivity; apply Qcle_antisym; try assumption; qc_lra.
  - intros H180. unfold top.
    rewrite (handleThumbPosition_mounted env _ _ thumb
               (Qc_of_Z 400) (Qc_of_Z 1000) (Qc_of_Z 300) h);
      try reflexivity; try assumption.
    cbn. unfold lit. do 3 f_equal.
    replace (Qc_of_Z 400 / Qc_of_Z 1000 * Qc_of_Z 300) with (Qc_of_Z 120)
      by qc_eval.
    destruct (Qcmin_spec (Qc_of_Z 120) (Qc_of_Z 300 - h)) as [[_ E]|[H _]];
      [exact E | exfalso; qc_lra].
Qed.

Lemma scroll_sync_top_witness :
  option_map style_top
    (scrollThumbRef
       (handleThumbPosition initial_scope
          (mounted (element 400 1000 200 200 0) (block 300 0) (block 20 0))))
  = Some (Some (lit 120)).
Proof.
  refine (proj2 (proj2
    (scroll_sync_top initial_scope (element 400 1000 200 200 0) (block 300 0)
       (block 20 0) (Qc_of_Z 400) (Qc_of_Z 1000) (Qc_of_Z 300) (Qc_of_Z 20)
       _ _ _ _ _ _)) _); reflexivity.
Defined.

(** C1 as stated fails, in two ways.  (1) The content is first measured at
    scrollHeight 400 with clientHeight 200 and a track of 300, which sizes
    the thumb to 150; it then grows to scrollHeight 1000 and is scrolled to
    800.  Clamping to [[0, trackHeight - thumbHeight]] gives 150; the handler
    writes 240.  (2) On a track of height 10 with the thumb at 20 and the
    content at offset 0, the clamp gives 0; the handler writes -10. *)
Lemma scroll_sync_top_counterexample :
  let r0 := mounted (element 0 400 200 200 0) (block 300 0) (block 20 0) in
  let r1 := mounted (element 800 1000 200 200 0) (block 300 0) (block 20 0) in
  let r2 := mounted (element 0 1000 200 200 0) (block 10 0) (block 20 0) in
  (exists c c',
      run [resize; browser r1] (mount r0) = Normal c
      /\ thumbHeight (state c) = lit 150
      /\ dispatch scroll c = Normal c'
      /\ thumb_top c' = Some (lit 240)
      /\ Spec.contentOffsetToTrackOffset
           (Qc_of_Z 800) (Qc_of_Z 1000) (Qc_of_Z 300) (Qc_of_Z 150)
         = Qc_of_Z 150
      /\ lit 240 <> lit 150)
  /\ (exists c',
        thumbHeight (state (mount r2)) = lit 20
        /\ dispatch scroll (mount r2) = Normal c'
        /\ thumb_top c' = Some (lit (-10))
        /\ Spec.contentOffsetToTrackOffset
             (Qc_of_Z 0) (Qc_of_Z 1000) (Qc_of_Z 10) (Qc_of_Z 20)
           = 0
        /\ (lit (-10) <? lit 0)%js = true).
Proof.
  cbv zeta. split.
  - eexists. eexists.
    split; [reflexivity|]. split; [js_eval|].
    split; [reflexivity|]. split; [|split].
    + js_eval.
    + qc_eval.
    + intros H. inversion H.
  - eexists. split; [reflexivity|]. split; [reflexivity|]. split; [|split].
    + js_eval.
    + qc_eval.
    + reflexivity.
Qed.

(** ** Binary64: what survives rounding *)








(** C9.  The scroll listener is the [handleThumbPosition] of the first
    render ([useCallback] with an empty dependency list), so the thumb height
    it subtracts is the initial 20 in every component an event history can
    produce, whatever the current thumb height [h] is.  The thumb top a
    scroll event writes is [min (x, trackHeight - 20)] for the proportional
    offset [x]: it is bounded by [trackHeight - 20], and when [h > 20] it
    goes above [trackHeight - h] as soon as [x] does. *)
Theorem scroll_sync_uses_initial_thumb_height c env content track thumb
    (st sh t : Qc) (h : number) :
  reachable c -> scroll_listener c = Some env ->
  refs c = mounted content track thumb ->
  0 < sh ->
  scrollTop content = Num st -> scrollHeight content = Num sh ->
  clientHeight track = Num t ->
  thumbHeight (state c) = h ->
  thumbHeight env = lit 20
  /\ exists c' top,
       dispatch scroll c = Normal c'
       /\ thumb_top c' = Some (Num top)
       /\ top = Spec.Qcmin (st / sh * t) (t - Qc_of_Z 20)
       /\ top <= t - Qc_of_Z 20
       /\ forall h', h = Num h' -> Qc_of_Z 20 < h' ->
            t - h' < st / sh * t -> t - h' < top.
Proof.
  intros Hc Hl Hr Hsh Hst Hs Htr Hh.
  split; [exact (reachable_listener c env Hc Hl)|].
  destruct (dispatch_scroll_mounted c env content track thumb st sh t
              Hc Hl Hr Hsh Hst Hs Htr) as (c' & Hd & _ & Htop).
  exists c', (Spec.Qcmin (st / sh * t) (t - Qc_of_Z 20)).
  repeat split; try assumption.
  - destruct (Qcmin_spec (st / sh * t) (t - Qc_of_Z 20)) as [[H ->]|[H ->]];
      [exact H | apply Qcle_refl].
  - intros h' _ Hh' Hx.
    destruct (Qcmin_spec (st / sh * t) (t - Qc_of_Z 20)) as [[H ->]|[H ->]];
      [exact Hx | qc_lra].
Qed.

(** A history in which the current thumb height is 150: the content is
    measured at scrollHeight 400, then grows to 1000 and is scrolled to 800.
    The top written is 240, above 300 - 150. *)
Lemma scroll_sync_uses_initial_thumb_height_witness :
  let r0 := mounted (element 0 400 200 200 0) (block 300 0) (block 20 0) in
  let r1 := mounted (element 800 1000 200 200 0) (block 300 0) (block 20 0) in
  let c := after [resize; browser r1] r0 in
  thumbHeight (state c) = lit 150
  /\ exists c' top,
       dispatch scroll c = Normal c' /\ thumb_top c' = Some (Num top)
       /\ Qc_of_Z 300 - Qc_of_Z 150 < top.
Proof.
  cbv zeta. split; [js_eval|].
  destruct (scroll_sync_uses_initial_thumb_height
              (after [resize;
                      browser (mounted (element 800 1000 200 200 0)
                                 (block 300 0) (block 20 0))]
                 (mounted (element 0 400 200 200 0) (block 300 0) (block 20 0)))
              initial_scope (element 800 1000 200 200 0) (block 300 0)
              (block 20 0) (Qc_of_Z 800) (Qc_of_Z 1000) (Qc_of_Z 300)
              (lit 150))
    as (_ & c' & top & Hd & Htop & _ & _ & Hex);
    try reflexivity; try apply reachable_after; try js_eval.
  exists c', top. split; [exact Hd|]. split; [exact Htop|].
  apply (Hex (Qc_of_Z 150)); reflexivity.
Defined.

(** ** Thumb sizing *)

(** C6.  With a measured content ([scrollHeight > 0]) the resize handler
    sets the thumb height to
    [max ((clientHeight / scrollHeight) * trackSize, 20)] and leaves the rest
    of the state alone; for clientHeight 10, scrollHeight 10000 and a track
    of 300 the thumb height is 20. *)
Theorem thumb_sizing ref trackSize state0 (cl sh t : Qc) :
  0 < sh ->
  clientHeight ref = Num cl -> scrollHeight ref = Num sh ->
  trackSize = Num t ->
  handleResize ref trackSize state0
    = setThumbHeight (Num (Spec.computeThumbHeight cl sh t)) state0
  /\ thumbHeight (handleResize (element 0 10000 10 10 0) (lit 300) state0)
     = lit 20.
Proof.
  intros Hsh Hcl Hs ->. split.
  - unfold handleResize. rewrite Hcl, Hs, div_Num by now apply Qc_pos_neq.
    cbn [mul]. unfold lit. rewrite Math_max_Num. reflexivity.
  - js_eval.
Qed.

Lemma thumb_sizing_witness :
  thumbHeight (handleResize (element 0 1000 200 200 0) (lit 300) initial_scope)
  = lit 60.
Proof.
  rewrite (proj1 (thumb_sizing (element 0 1000 200 200 0) (lit 300)
                    initial_scope (Qc_of_Z 200) (Qc_of_Z 1000) (Qc_of_Z 300)
                    eq_refl eq_refl eq_refl eq_refl)).
  js_eval.
Defined.

(** C7 (as amended).  Nothing short-circuits on an unmeasured content.  With
    [scrollHeight = 0] (and then [clientHeight = 0] and [scrollTop = 0]) the
    resize handler stores NaN as thumb height, whatever the track size, and
    the scroll-sync handler, when the three surfaces are mounted, writes NaN
    as thumb top, whatever the track and thumb heights.  A positive
    clientHeight over [scrollHeight = 0] and a track of positive size gives
    the thumb height Infinity. *)
Theorem unmeasured_geometry ref content :
  scrollHeight ref = lit 0 ->
  scrollHeight content = lit 0 -> scrollTop content = lit 0 ->
  (forall trackSize state0,
      clientHeight ref = lit 0 ->
      thumbHeight (handleResize ref trackSize state0) = NaN)
  /\ (forall (cl t : Qc) state0,
        clientHeight ref = Num cl -> 0 < cl -> 0 < t ->
        thumbHeight (handleResize ref (Num t) state0) = Infinity)
  /\ (forall env track thumb,
        option_map style_top
          (scrollThumbRef
             (handleThumbPosition env (mounted content track thumb)))
        = Some (Some NaN)).
Proof.
  intros Hs Hcs Hct. repeat split.
  - intros trackSize state0 Hcl. unfold handleResize; cbn.
    rewrite Hcl, Hs. reflexivity.
  - intros cl t state0 Hcl Hpos Ht. unfold handleResize; cbn.
    rewrite Hcl, Hs. unfold lit, div.
    replace (sign (Qc_of_Z 0)) with Eq by reflexivity.
    unfold scale_inf. rewrite (sign_pos cl Hpos). cbn.
    unfold scale_inf. rewrite (sign_pos t Ht). reflexivity.
  - intros env track thumb. unfold handleThumbPosition; cbn.
    rewrite Hcs, Hct. reflexivity.
Qed.

Lemma unmeasured_geometry_witness :
  let content := block 0 0 in
  thumbHeight (handleResize content (lit 300) initial_scope) = NaN
  /\ option_map style_top
       (scrollThumbRef
          (handleThumbPosition initial_scope
             (mounted content (block 300 0) (block 20 0))))
     = Some (Some NaN).
Proof.
  cbv zeta.
  destruct (unmeasured_geometry (block 0 0) (block 0 0) eq_refl eq_refl eq_refl)
    as (H1 & _ & H3).
  split; [apply H1; reflexivity | apply H3].
Defined.

(** C7 as stated fails.  A component mounted over an unmeasured content
    holds the thumb height 20; the first resize notification replaces it by
    NaN, and a scroll event then writes NaN as thumb top. *)
Lemma unmeasured_geometry_counterexample :
  let r0 := mounted (block 0 0) (block 300 0) (block 20 0) in
  exists c c',
    thumbHeight (state (mount r0)) = lit 20
    /\ dispatch resize (mount r0) = Normal c
    /\ thumbHeight (state c) = NaN
    /\ thumb_top c = None
    /\ dispatch scroll c = Normal c'
    /\ thumb_top c' = Some NaN.
Proof. cbv zeta. do 2 eexists. repeat split; reflexivity. Qed.

(** ** Track click *)

Lemma Qcinv_pos (t : Qc) : 0 < t -> 0 < / t.
Proof.
  intros Ht. replace (/ t) with (1 / t) by (field; now apply Qc_pos_neq).
  apply Qcdiv_pos; [reflexivity | assumption].
Qed.

Lemma ratio_neg (a t s : Qc) : a < 0 -> 0 < t -> 0 < s -> a / t * s < 0.
Proof.
  intros Ha Ht Hs.
  replace 0 with (0 / t * s) by (field; now apply Qc_pos_neq).
  apply Qcmult_lt_compat_r; [assumption|].
  unfold Qcdiv. apply Qcmult_lt_compat_r; [now apply Qcinv_pos | assumption].
Qed.

Lemma Qc_floor_le (q : Qc) : Qc_of_Z (Qfloor q) <= q.
Proof.
  unfold Qcle, Qc_of_Z, Q2Qc; cbn [this]. rewrite Qred_correct.
  apply Qfloor_le.
Qed.

(** The target the click handler computes is the floor formula of the
    specification, and it is what the content is asked to scroll to. *)
Lemma handleTrackClick_mounted env e r trackCurrent contentCurrent
    (y top t h sh : Qc) :
  scrollTrackRef r = Some trackCurrent -> contentRef r = Some contentCurrent ->
  0 < t ->
  clientY e = Num y -> rect_top (target e) = Num top ->
  clientHeight trackCurrent = Num t -> thumbHeight env = Num h ->
  scrollHeight contentCurrent = Num sh ->
  handleTrackClick env e r
  = set_contentRef
      (request
         (scrollTo (Num (Spec.trackClickToContentOffset y top t h sh)) smooth)
         contentCurrent) r.
Proof.
  intros Htr Hco Ht Hy Htop Hth Hh Hsh. unfold handleTrackClick.
  rewrite Htr, Hco, Hy, Htop, Hth, Hh, Hsh. unfold lit.
  rewrite (div_Num h (Qc_of_Z 2)) by (intros E; inversion E).
  cbn [neg sub add]. rewrite div_Num by now apply Qc_pos_neq.
  cbn [mul Math_floor]. reflexivity.
Qed.




(** C10.  The click handler does not clamp its target.  With a track of
    positive height and a measured content, a click less than half a thumb
    height below the track top asks for a negative offset; the value of the
    floor formula is what [scrollTo] receives.  A click at the bottom of a
    track of 300 over a content of scrollHeight 1000 and clientHeight 200
    asks for 966, beyond the maximum offset 800. *)
Theorem track_click_unclamped env e r trackCurrent contentCurrent
    (y top t h sh : Qc) :
  scrollTrackRef r = Some trackCurrent -> contentRef r = Some contentCurrent ->
  0 < t -> 0 < sh ->
  clientY e = Num y -> rect_top (target e) = Num top ->
  clientHeight trackCurrent = Num t -> thumbHeight env = Num h ->
  scrollHeight contentCurrent = Num sh ->
  let scrollAmount := Spec.trackClickToContentOffset y top t h sh in
  content_requests (handleTrackClick env e r)
    = scrollTo (Num scrollAmount) smooth :: requests contentCurrent
  /\ (y - top < h / Qc_of_Z 2 -> scrollAmount < 0)
  /\ content_requests
       (handleTrackClick initial_scope
          {| clientY := lit 300; target := block 300 0 |}
          (mounted (element 0 1000 200 200 0) (block 300 0) (block 20 0)))
     = [scrollTo (lit 966) smooth]
  /\ Qc_of_Z 1000 - Qc_of_Z 200 < Qc_of_Z 966.
Proof.
  intros Htr Hco Ht Hsh Hy Htop Hth Hh Hs scrollAmount.
  split; [|split; [|split]].
  - rewrite (handleTrackClick_mounted env e r trackCurrent contentCurrent
               y top t h sh) by assumption.
    reflexivity.
  - intros Hclick. unfold scrollAmount, Spec.trackClickToContentOffset.
    eapply Qcle_lt_trans; [apply Qc_floor_le|].
    apply ratio_neg; try assumption.
    revert Hclick. generalize (h / Qc_of_Z 2). intros half Hclick. qc_lra.
  - js_eval.
  - reflexivity.
Qed.

Lemma track_click_unclamped_witness :
  content_requests
    (handleTrackClick initial_scope
       {| clientY := lit 5; target := block 300 0 |}
       (mounted (element 0 1000 200 200 0) (block 300 0) (block 20 0)))
  = [scrollTo (lit (-17)) smooth]
  /\ Qc_of_Z (-17) < 0.
Proof.
  destruct (track_click_unclamped initial_scope
              {| clientY := lit 5; target := block 300 0 |}
              (mounted (element 0 1000 200 200 0) (block 300 0) (block 20 0))
              (block 300 0) (element 0 1000 200 200 0)
              (Qc_of_Z 5) 0 (Qc_of_Z 300) (Qc_of_Z 20) (Qc_of_Z 1000))
    as (Hq & Hneg & _); try reflexivity.
  replace (Spec.trackClickToContentOffset
             (Qc_of_Z 5) 0 (Qc_of_Z 300) (Qc_of_Z 20) (Qc_of_Z 1000))
    with (Qc_of_Z (-17)) in Hq, Hneg by qc_eval.
  split; [exact Hq | apply Hneg; reflexivity].
Defined.

(** ** Dragging *)

(** What a pointer move writes while a session is active and the content is
    mounted. *)
Lemma handleThumbMouseMove_dragging env e r content (y y0 oh h i sh : Qc) :
  isDragging env = true -> contentRef r = Some content ->
  clientY e = Num y -> scrollStartPosition env = Some (Num y0) ->
  offsetHeight content = Num oh -> thumbHeight env = Num h -> 0 < h ->
  initialScrollTop env = Num i -> scrollHeight content = Num sh ->
  deltaY env e content = Num ((y - y0) * (oh / h))
  /\ handleThumbMouseMove env e r
     = Normal
         (set_contentRef
            (request
               (assign_scrollTop
                  (Num (Spec.Qcmin (i + (y - y0) * (oh / h)) (sh - oh))))
               content) r).
Proof.
  intros Hd Hco Hy Hy0 Hoh Hh Hpos Hi Hsh.
  assert (Hdelta : deltaY env e content = Num ((y - y0) * (oh / h))).
  { unfold deltaY. rewrite Hy, Hy0, Hoh, Hh. cbn [non_null_number].
    rewrite div_Num by now apply Qc_pos_neq. reflexivity. }
  split; [exact Hdelta|].
  unfold handleThumbMouseMove, newScrollTop. rewrite Hd, Hco, Hdelta, Hi, Hsh, Hoh.
  cbn [add]. rewrite sub_Num, Math_min_Num. reflexivity.
Qed.

(** C3 (as amended).  While a session is active a pointer move computes
    [deltaY = (clientY - startPointerY) * (offsetHeight / thumbHeight)] from
    the content's offsetHeight (not its clientHeight) and writes
    [min (startScrollTop + deltaY, scrollHeight - offsetHeight)] as scroll
    offset; with offsetHeight 200 and thumbHeight 50 a pointer movement of
    25 gives [deltaY = 100]. *)
Theorem drag_scale env e r content (y y0 oh h : Qc) :
  isDragging env = true -> contentRef r = Some content ->
  clientY e = Num y -> scrollStartPosition env = Some (Num y0) ->
  offsetHeight content = Num oh -> thumbHeight env = Num h -> 0 < h ->
  deltaY env e content = Num ((y - y0) * (oh / h))
  /\ (exists r',
        handleThumbMouseMove env e r = Normal r'
        /\ content_requests r'
           = assign_scrollTop
               (Math_min (initialScrollTop env + deltaY env e content)
                         (scrollHeight content - offsetHeight content))%js
             :: requests content)
  /\ (oh = Qc_of_Z 200 -> h = Qc_of_Z 50 -> y - y0 = Qc_of_Z 25 ->
      deltaY env e content = lit 100).
Proof.
  intros Hd Hco Hy Hy0 Hoh Hh Hpos.
  assert (Hdelta : deltaY env e content = Num ((y - y0) * (oh / h))).
  { unfold deltaY. rewrite Hy, Hy0, Hoh, Hh. cbn [non_null_number].
    rewrite div_Num by now apply Qc_pos_neq. reflexivity. }
  split; [exact Hdelta|]. split.
  - eexists. split.
    + unfold handleThumbMouseMove. rewrite Hd, Hco. reflexivity.
    + reflexivity.
  - intros -> -> E. rewrite Hdelta, E. js_eval.
Qed.

Lemma drag_scale_witness :
  deltaY (dragging 100 0 50) (pointer 125 (block 50 0))
    (element 0 1000 200 200 0)
  = lit 100.
Proof.
  refine (proj2 (proj2
    (drag_scale (dragging 100 0 50) (pointer 125 (block 50 0))
       (mounted (element 0 1000 200 200 0) (block 300 0) (block 50 0))
       (element 0 1000 200 200 0)
       (Qc_of_Z 125) (Qc_of_Z 100) (Qc_of_Z 200) (Qc_of_Z 50)
       _ _ _ _ _ _ _)) _ _ _); try reflexivity; qc_eval.
Defined.

(** C3 as stated fails: the scale is taken from offsetHeight.  A content
    with clientHeight 200 inside a 5px border has offsetHeight 210; with a
    thumb of 50, a pointer movement of 25 gives 105, not
    [25 * (200 / 50) = 100]. *)
Lemma drag_scale_counterexample :
  let content := element 0 1000 200 210 0 in
  let env := dragging 100 0 50 in
  let e := pointer 125 (block 50 0) in
  clientHeight content = lit 200
  /\ deltaY env e content = lit 105
  /\ Spec.dragDelta (Qc_of_Z 125) (Qc_of_Z 100) (Qc_of_Z 200) (Qc_of_Z 50)
     = Qc_of_Z 100
  /\ handleThumbMouseMove env e (mounted content (block 300 0) (block 50 0))
     = Normal
         (mounted (request (assign_scrollTop (lit 105)) content)
            (block 300 0) (block 50 0))
  /\ lit 105 <> lit 100.
Proof.
  cbv zeta. repeat split; try reflexivity; try js_eval; try qc_eval.
  intros H. inversion H.
Qed.

(** C4 (as amended).  For a pointer move during an active session the
    offset written to the content is
    [min (startScrollTop + deltaY, scrollHeight - offsetHeight)].  The
    handler bounds it from above only: whenever [startScrollTop + deltaY] is
    negative, so is the written offset. *)
Theorem drag_written_offset env e r content (y y0 oh h i sh : Qc) :
  isDragging env = true -> contentRef r = Some content ->
  clientY e = Num y -> scrollStartPosition env = Some (Num y0) ->
  offsetHeight content = Num oh -> thumbHeight env = Num h -> 0 < h ->
  initialScrollTop env = Num i -> scrollHeight content = Num sh ->
  let delta := (y - y0) * (oh / h) in
  exists r' written,
    handleThumbMouseMove env e r = Normal r'
    /\ content_requests r' = assign_scrollTop (Num written) :: requests content
    /\ written = Spec.Qcmin (i + delta) (sh - oh)
    /\ (i + delta < 0 -> written < 0).
Proof.
  intros Hd Hco Hy Hy0 Hoh Hh Hpos Hi Hsh delta.
  destruct (handleThumbMouseMove_dragging env e r content y y0 oh h i sh)
    as [_ Hmove]; try assumption.
  do 2 eexists. split; [exact Hmove|]. split; [reflexivity|].
  split; [reflexivity|]. fold delta. intros Hneg.
  destruct (Qcmin_spec (i + delta) (sh - oh)) as [[_ ->]|[H ->]];
    [exact Hneg | now apply (Qclt_trans _ (i + delta))].
Qed.

Lemma drag_written_offset_witness :
  content_requests
    (match
        handleThumbMouseMove (dragging 100 0 50) (pointer 0 (block 50 0))
          (mounted (element 0 1000 200 200 0) (block 300 0) (block 50 0))
      with
      | Normal r' => r'
      | TypeError => unmounted
      end)
  = [assign_scrollTop (lit (-400))]
  /\ Qc_of_Z (-400) < 0.
Proof.
  destruct (drag_written_offset (dragging 100 0 50) (pointer 0 (block 50 0))
              (mounted (element 0 1000 200 200 0) (block 300 0) (block 50 0))
              (element 0 1000 200 200 0)
              (Qc_of_Z 0) (Qc_of_Z 100) (Qc_of_Z 200) (Qc_of_Z 50)
              (Qc_of_Z 0) (Qc_of_Z 1000))
    as (r' & written & Hmove & Hreq & Hw & Hneg); try reflexivity.
  rewrite Hmove, Hreq.
  assert (E : written = Qc_of_Z (-400)) by (rewrite Hw; qc_eval).
  rewrite E. split; reflexivity.
Defined.

(** C4 as stated fails.  A drag begun at pointer height 100 with the content
    at offset 0, then a pointer move to height 0: the offset written is
    -1000, the minimum of [0 + (0 - 100) * (200 / 20)] and [1000 - 200],
    with no clamp at 0. *)
Lemma drag_written_offset_counterexample :
  let content := element 0 1000 200 200 0 in
  let r0 := mounted content (block 300 0) (block 20 0) in
  exists c,
    run [mousedown_thumb (pointer 100 (block 20 0));
         mousemove (pointer 0 (block 20 0))] (mount r0) = Normal c
    /\ content_requests (refs c) = [assign_scrollTop (lit (-1000))]
    /\ (lit (-1000) <? lit 0)%js = true.
Proof.
  cbv zeta. eexists. split; [reflexivity|]. split; [|reflexivity].
  cbn. first [reflexivity | do 2 f_equal; js_eval].
Qed.

(** ** Missing surfaces *)

(** Scroll-sync, the track click and the scroll buttons leave everything as
    it is when a surface they need is missing, and so does a pointer move
    outside a drag session. *)
Lemma handleThumbPosition_missing env r :
  contentRef r = None \/ scrollThumbRef r = None \/ scrollTrackRef r = None ->
  handleThumbPosition env r = r.
Proof.
  unfold handleThumbPosition.
  intros [H|[H|H]]; rewrite H;
    destruct (contentRef r), (scrollThumbRef r), (scrollTrackRef r);
    reflexivity || discriminate.
Qed.

Lemma handleTrackClick_missing env e r :
  scrollTrackRef r = None \/ contentRef r = None ->
  handleTrackClick env e r = r.
Proof.
  unfold handleTrackClick.
  intros [H|H]; rewrite H; [|destruct (scrollTrackRef r)]; reflexivity.
Qed.

Lemma handleScrollButton_missing d r :
  contentRef r = None -> handleScrollButton d r = r.
Proof. unfold handleScrollButton. now intros ->. Qed.

Lemma handleThumbMouseMove_idle env e r :
  isDragging env = false -> handleThumbMouseMove env e r = Normal r.
Proof. unfold handleThumbMouseMove. now intros ->. Qed.

(** While a session is active the pointer-move handler reads the content
    without a check, and throws when it is missing. *)
Lemma handleThumbMouseMove_missing env e r :
  isDragging env = true -> contentRef r = None ->
  handleThumbMouseMove env e r = TypeError.
Proof. unfold handleThumbMouseMove. now intros -> ->. Qed.

(** C8.  The claim fails for the pointer move of an active drag: a drag is
    begun on the thumb, the surfaces are detached, and the next pointer move
    throws a TypeError instead of doing nothing. *)
Theorem drag_move_without_content_throws :
  let r0 := mounted (element 0 1000 200 200 0) (block 300 0) (block 20 0) in
  let c := after [mousedown_thumb (pointer 100 (block 20 0)); browser unmounted]
             r0 in
  isDragging (state c) = true
  /\ contentRef (refs c) = None
  /\ dispatch scroll c = Normal c
  /\ dispatch (click_track (pointer 150 (block 300 0))) c = Normal c
  /\ dispatch (click_button down) c = Normal c
  /\ dispatch (mousemove (pointer 120 (block 20 0))) c = TypeError.
Proof. cbv zeta. repeat split; reflexivity. Qed.

(** * Further properties of the handlers *)

(** ** Invariants of event histories *)

Lemma run_preserves (P : Scrollbar -> Prop) :
  (forall ev c c', P c -> dispatch ev c = Normal c' -> P c') ->
  forall evs c c', P c -> run evs c = Normal c' -> P c'.
Proof.
  intros Hstep evs. induction evs as [|ev rest IH]; intros c c' Hc H; cbn in H.
  - now inversion H; subst.
  - destruct (dispatch ev c) as [c1|] eqn:E; [|discriminate].
    cbn in H. eapply IH; [|exact H]. eapply Hstep; eassumption.
Qed.

Lemma Math_max_20_ok (x : number) : thumbHeight_ok (Math_max x (lit 20)).
Proof.
  destruct x as [p| | |]; [|cbn; trivial | cbn; apply Qcle_refl | cbn; trivial].
  unfold lit. rewrite Math_max_Num.
  destruct (Qcmax_spec p (Qc_of_Z 20)) as [[_ ->]|[H ->]];
    cbn; [apply Qcle_refl | exact H].
Qed.

Lemma dispatch_thumbHeight_ok ev c c' :
  thumbHeight_ok (thumbHeight (state c)) -> dispatch ev c = Normal c' ->
  thumbHeight_ok (thumbHeight (state c')).
Proof.
  intros Hc H. destruct ev; cbn in H.
  - destruct (scroll_listener c); inversion H; subst; exact Hc.
  - destruct (observer c), (contentRef (refs c)); inversion H; subst;
      try exact Hc.
    cbn. apply Math_max_20_ok.
  - inversion H; subst; exact Hc.
  - inversion H; subst; exact Hc.
  - inversion H; subst. cbn. unfold handleThumbMousedown.
    destruct (contentRef (refs c)); exact Hc.
  - destruct (handleThumbMouseMove _ _ _); inversion H; subst; exact Hc.
  - inversion H; subst. cbn. unfold handleThumbMouseup.
    destruct (isDragging _); exact Hc.
  - inversion H; subst; exact Hc.
Qed.

Lemma reachable_thumbHeight_ok c :
  reachable c -> thumbHeight_ok (thumbHeight (state c)).
Proof.
  intros (r0 & evs & H).
  apply (run_preserves (fun c => thumbHeight_ok (thumbHeight (state c)))
           dispatch_thumbHeight_ok evs (mount r0) c); [|exact H].
  unfold mount. destruct (contentRef r0), (scrollTrackRef r0);
    cbn; apply Qcle_refl.
Qed.

(** X1.  Whatever the event history, the thumb height held in the state is
    never below the floor of 20: it is a finite height of at least 20, or
    Infinity, or NaN.  In particular it is never zero or negative, so the
    drag handler never divides by zero. *)
Theorem thumb_height_floor c :
  reachable c ->
  thumbHeight (state c) <> NegInfinity
  /\ forall h, thumbHeight (state c) = Num h -> Qc_of_Z 20 <= h /\ 0 < h.
Proof.
  intros Hc. apply reachable_thumbHeight_ok in Hc.
  split.
  - intros E. now rewrite E in Hc.
  - intros h E. rewrite E in Hc. cbn in Hc. split; [exact Hc|].
    apply (Qclt_le_trans _ (Qc_of_Z 20)); [reflexivity | exact Hc].
Qed.

Lemma thumb_height_floor_witness :
  let c := after [resize; mousedown_thumb (pointer 100 (block 20 0)); resize]
             page in
  thumbHeight (state c) = lit 60 /\ Qc_of_Z 20 <= Qc_of_Z 60.
Proof.
  cbv zeta.
  assert (E : thumbHeight
                (state (after [resize;
                               mousedown_thumb (pointer 100 (block 20 0));
                               resize] page)) = lit 60) by js_eval.
  split; [exact E|].
  exact (proj1 (proj2 (thumb_height_floor _ (reachable_after _ page))
                  (Qc_of_Z 60) E)).
Defined.

(** ** Thumb sizing *)

(** X2.  For a content that is measured and no taller than its scroll extent
    ([0 < clientHeight <= scrollHeight], as the DOM reports it), the resize
    handler stores a thumb height between 20 and the track size whenever the
    track is at least 20 high; on a shorter track it stores 20, more than
    the track holds. *)
Theorem thumb_fits_track ref state0 (cl sh t : Qc) :
  0 < cl -> cl <= sh -> 0 < t ->
  clientHeight ref = Num cl -> scrollHeight ref = Num sh ->
  exists h,
    thumbHeight (handleResize ref (Num t) state0) = Num h
    /\ Qc_of_Z 20 <= h
    /\ (Qc_of_Z 20 <= t -> h <= t)
    /\ (t < Qc_of_Z 20 -> h = Qc_of_Z 20).
Proof.
  intros Hcl Hle Ht Hc Hs.
  assert (Hsh : 0 < sh) by (now apply (Qclt_le_trans _ cl)).
  exists (Spec.computeThumbHeight cl sh t). split.
  - unfold handleResize. rewrite Hc, Hs, div_Num by now apply Qc_pos_neq.
    cbn [mul]. unfold lit. rewrite Math_max_Num. reflexivity.
  - pose proof (proportional_offset_mono cl sh sh t Hsh Ht Hle) as Hraw.
    replace (sh / sh * t) with t in Hraw by (field; now apply Qc_pos_neq).
    unfold Spec.computeThumbHeight, Spec.MIN_THUMB.
    revert Hraw. generalize (cl / sh * t). intros raw Hraw.
    destruct (Qcmax_spec raw (Qc_of_Z 20)) as [[H ->]|[H ->]];
      repeat split; intros; try apply Qcle_refl; try assumption;
      try reflexivity.
    exfalso. qc_lra.
Qed.

Lemma thumb_fits_track_witness :
  exists h,
    thumbHeight (handleResize (element 0 1000 200 200 0) (lit 300) initial_scope)
    = Num h
    /\ Qc_of_Z 20 <= h /\ h <= Qc_of_Z 300.
Proof.
  destruct (thumb_fits_track (element 0 1000 200 200 0) initial_scope
              (Qc_of_Z 200) (Qc_of_Z 1000) (Qc_of_Z 300))
    as (h & E & Hlo & Hhi & _);
    try reflexivity; try (vm_compute; discriminate).
  exists h. split; [exact E|]. split; [exact Hlo|].
  apply Hhi. vm_compute; discriminate.
Defined.

(** ** Idempotence *)

Lemma Object_is_refl (a : number) : Object_is a a = true.
Proof.
  destruct a; cbn; try reflexivity.
  unfold Qc_eq_bool. destruct (Qc_eq_dec q q); [reflexivity | contradiction].
Qed.

Lemma option_is_refl (a : option number) : option_is a a = true.
Proof. destruct a; cbn; [apply Object_is_refl | reflexivity]. Qed.

Lemma useCallback_again (same : Scope -> Scope -> bool) previous s :
  same s s = true ->
  useCallback same (Some (useCallback same previous s)) s
  = useCallback same previous s.
Proof.
  intros Hrefl. unfold useCallback. destruct previous as [p|].
  - destruct (same p s) eqn:E; [now rewrite E | now rewrite Hrefl].
  - now rewrite Hrefl.
Qed.

(** Rendering twice with the same state keeps every closure. *)
Lemma render_again previous s :
  render (Some (render previous s)) s = render previous s.
Proof.
  unfold render; cbn [option_map cb_handleThumbPosition cb_handleTrackClick
                        cb_handleThumbMouseup cb_handleThumbMouseMove].
  rewrite !useCallback_again; try reflexivity.
  - unfold deps_handleThumbMouseMove.
    now rewrite Bool.eqb_reflx, option_is_refl, Object_is_refl.
  - unfold deps_handleThumbMouseup. apply Bool.eqb_reflx.
  - unfold deps_handleTrackClick. apply Object_is_refl.
Qed.

Lemma handleThumbPosition_again env r :
  handleThumbPosition env (handleThumbPosition env r)
  = handleThumbPosition env r.
Proof.
  unfold handleThumbPosition.
  destruct r as [[content|] [track|] [thumb|]]; reflexivity.
Qed.

Lemma handleResize_again ref trackSize s :
  handleResize ref trackSize (handleResize ref trackSize s)
  = handleResize ref trackSize s.
Proof. reflexivity. Qed.

(** X3.  Scroll-sync and thumb sizing are idempotent: a second scroll event,
    or a second resize notification, over unchanged geometry leaves the
    component exactly as the first one left it (state, refs and memoised
    callbacks). *)
Theorem sync_idempotent c c1 :
  (dispatch scroll c = Normal c1 -> dispatch scroll c1 = Normal c1)
  /\ (dispatch resize c = Normal c1 -> dispatch resize c1 = Normal c1).
Proof.
  split; intros H; cbn in H |- *.
  - destruct (scroll_listener c) as [env|] eqn:El; inversion H; subst; cbn.
    + rewrite El. unfold set_refs; cbn.
      now rewrite handleThumbPosition_again.
    + now rewrite El.
  - destruct (observer c) as [trackSize|] eqn:Eo;
      [destruct (contentRef (refs c)) as [ref|] eqn:Er|];
      inversion H; subst; cbn; rewrite ?Eo, ?Er; try reflexivity.
    unfold set_state; cbn. now rewrite render_again.
Qed.

Lemma sync_idempotent_witness :
  exists c1,
    dispatch scroll (mount page) = Normal c1
    /\ thumb_top c1 = Some (lit 120)
    /\ dispatch scroll c1 = Normal c1.
Proof.
  eexists. split; [reflexivity|]. split; [js_eval|].
  apply (proj1 (sync_idempotent (mount page) _)). reflexivity.
Defined.

(** ** Who writes what *)

Lemma handleTrackClick_frame env e r :
  scrollTrackRef (handleTrackClick env e r) = scrollTrackRef r
  /\ scrollThumbRef (handleTrackClick env e r) = scrollThumbRef r.
Proof.
  unfold handleTrackClick.
  destruct r as [[content|] [track|] thumb]; split; reflexivity.
Qed.

Lemma handleScrollButton_frame d r :
  scrollTrackRef (handleScrollButton d r) = scrollTrackRef r
  /\ scrollThumbRef (handleScrollButton d r) = scrollThumbRef r.
Proof.
  unfold handleScrollButton.
  destruct r as [[content|] track thumb]; split; reflexivity.
Qed.

Lemma handleThumbMouseMove_frame env e r r' :
  handleThumbMouseMove env e r = Normal r' ->
  scrollTrackRef r' = scrollTrackRef r /\ scrollThumbRef r' = scrollThumbRef r.
Proof.
  unfold handleThumbMouseMove.
  destruct (isDragging env); [destruct r as [[content|] track thumb]|];
    intros H; inversion H; subst; split; reflexivity.
Qed.

Lemma handleThumbPosition_frame env r :
  contentRef (handleThumbPosition env r) = contentRef r
  /\ scrollTrackRef (handleThumbPosition env r) = scrollTrackRef r.
Proof.
  unfold handleThumbPosition.
  destruct r as [[content|] [track|] [thumb|]]; split; reflexivity.
Qed.

(** X4.  Each surface has its own writers.  The thumb's top is written by
    scroll events only: clicks, drags and resizes reach it through the
    content's scroll event, never directly.  The track is never written.
    The content is left alone by scroll and resize events and by presses and
    releases.  The state changes on resize, press and release only.
    (A [browser] event is the page itself changing.) *)
Theorem writers ev c c' :
  dispatch ev c = Normal c' ->
  (forall r, ev <> browser r) ->
  scrollTrackRef (refs c') = scrollTrackRef (refs c)
  /\ (ev <> scroll -> scrollThumbRef (refs c') = scrollThumbRef (refs c))
  /\ (contentRef (refs c') <> contentRef (refs c) ->
      (exists e, ev = click_track e) \/ (exists d, ev = click_button d)
      \/ (exists e, ev = mousemove e))
  /\ (state c' <> state c ->
      ev = resize \/ (exists e, ev = mousedown_thumb e) \/ ev = mouseup).
Proof.
  intros H Hb. destruct ev; cbn in H.
  - assert (E : contentRef (refs c') = contentRef (refs c)
                /\ scrollTrackRef (refs c') = scrollTrackRef (refs c)
                /\ state c' = state c).
    { destruct (scroll_listener c) as [env|]; inversion H; subst; cbn;
        repeat split; apply handleThumbPosition_frame. }
    destruct E as (Ec & Et & Es).
    split; [exact Et|]. split; [intros Hn; now contradiction Hn|].
    split; intros Hn; now contradiction Hn.
  - assert (E : refs c' = refs c).
    { destruct (observer c), (contentRef (refs c)); now inversion H; subst. }
    rewrite E. split; [reflexivity|]. split; [reflexivity|].
    split; [intros Hn; now contradiction Hn | intros _; now left].
  - inversion H; subst; cbn.
    split; [apply handleTrackClick_frame|].
    split; [intros _; apply handleTrackClick_frame|].
    split; [intros _; left; now exists e | intros Hn; now contradiction Hn].
  - inversion H; subst; cbn.
    split; [apply handleScrollButton_frame|].
    split; [intros _; apply handleScrollButton_frame|].
    split; [intros _; right; left; now exists d
           | intros Hn; now contradiction Hn].
  - inversion H; subst; cbn.
    split; [reflexivity|]. split; [reflexivity|].
    split; [intros Hn; now contradiction Hn
           | intros _; right; left; now exists e].
  - destruct (handleThumbMouseMove _ _ _) as [r'|] eqn:E; inversion H; subst.
    cbn. split; [apply (handleThumbMouseMove_frame _ _ _ _ E)|].
    split; [intros _; apply (handleThumbMouseMove_frame _ _ _ _ E)|].
    split; [intros _; right; right; now exists e
           | intros Hn; now contradiction Hn].
  - inversion H; subst; cbn.
    split; [reflexivity|]. split; [reflexivity|].
    split; [intros Hn; now contradiction Hn | intros _; now right; right].
  - exfalso. now apply (Hb r).
Qed.

Lemma writers_witness :
  exists c',
    dispatch (mousemove (pointer 0 (block 20 0)))
      (after [mousedown_thumb (pointer 100 (block 20 0))] page) = Normal c'
    /\ thumb_top c' = None
    /\ content_requests (refs c') = [assign_scrollTop (lit (-600))].
Proof.
  eexists. split; [reflexivity|].
  destruct (writers (mousemove (pointer 0 (block 20 0)))
              (after [mousedown_thumb (pointer 100 (block 20 0))] page) _
              eq_refl) as (_ & Hthumb & _ & _); [intros r; discriminate|].
  split.
  - unfold thumb_top. rewrite Hthumb by discriminate. reflexivity.
  - cbn. first [reflexivity | do 2 f_equal; js_eval].
Defined.

(** ** Registration happens once, at mount *)

Lemma dispatch_registration ev c c' :
  dispatch ev c = Normal c' ->
  observer c' = observer c /\ scroll_listener c' = scroll_listener c.
Proof.
  intros H. destruct ev; cbn in H.
  - destruct (scroll_listener c) eqn:E; inversion H; subst; cbn;
      split; congruence.
  - destruct (observer c) eqn:E, (contentRef (refs c)); inversion H; subst;
      cbn; split; congruence.
  - now inversion H; subst.
  - now inversion H; subst.
  - now inversion H; subst.
  - destruct (handleThumbMouseMove _ _ _); now inversion H; subst.
  - now inversion H; subst.
  - now inversion H; subst.
Qed.

Lemma run_registration evs c c' :
  run evs c = Normal c' ->
  observer c' = observer c /\ scroll_listener c' = scroll_listener c.
Proof.
  intros H.
  apply (run_preserves
           (fun x => observer x = observer c
                     /\ scroll_listener x = scroll_listener c))
    with (evs := evs) (c := c); [|now split|exact H].
  intros ev c1 c2 [Ho Hl] Hd.
  destruct (dispatch_registration ev c1 c2 Hd) as [Ho' Hl'].
  split; congruence.
Qed.

(** X5.  The resize observer and the scroll listener are set up by the mount
    effect and never again.  If content and track were both there at mount,
    every later resize notification sizes the thumb with the track height
    read at mount, whatever height the track has by then.  If either was
    missing at mount, no later resize or scroll event does anything, even
    once the nodes are there. *)
Theorem registration_fixed_at_mount r0 evs c :
  run evs (mount r0) = Normal c ->
  (forall content0 track0 ref,
      contentRef r0 = Some content0 -> scrollTrackRef r0 = Some track0 ->
      contentRef (refs c) = Some ref ->
      exists c',
        dispatch resize c = Normal c'
        /\ thumbHeight (state c')
           = Math_max ((clientHeight ref / scrollHeight ref)
                       * clientHeight track0)%js (lit 20))
  /\ (contentRef r0 = None \/ scrollTrackRef r0 = None ->
      dispatch resize c = Normal c /\ dispatch scroll c = Normal c).
Proof.
  intros H. destruct (run_registration evs (mount r0) c H) as [Ho Hl].
  split.
  - intros content0 track0 ref Hc0 Ht0 Hr.
    unfold mount in Ho. rewrite Hc0, Ht0 in Ho. cbn in Ho.
    eexists. split; [cbn; rewrite Ho, Hr; reflexivity | reflexivity].
  - intros Hmiss.
    assert (Hnone : observer (mount r0) = None
                    /\ scroll_listener (mount r0) = None).
    { unfold mount. destruct Hmiss as [E|E]; rewrite E;
        [|destruct (contentRef r0)]; now split. }
    destruct Hnone as [Ho0 Hl0]. rewrite Ho0 in Ho. rewrite Hl0 in Hl.
    cbn. now rewrite Ho, Hl.
Qed.

(** The track is 300 high at mount and 600 by the time of the resize; the
    thumb is still sized against 300. *)
Lemma registration_fixed_at_mount_witness :
  let resized :=
    mounted (element 400 1000 200 200 0) (block 600 0) (block 20 0) in
  exists c',
    dispatch resize (after [browser resized] page) = Normal c'
    /\ thumbHeight (state c') = lit 60.
Proof.
  cbv zeta.
  destruct (proj1 (registration_fixed_at_mount page
                     [browser (mounted (element 400 1000 200 200 0)
                                 (block 600 0) (block 20 0))]
                     (after [browser (mounted (element 400 1000 200 200 0)
                                        (block 600 0) (block 20 0))] page)
                     eq_refl)
              (element 400 1000 200 200 0) (block 300 0)
              (element 400 1000 200 200 0) eq_refl eq_refl eq_refl)
    as (c' & Hd & Hh).
  exists c'. split; [exact Hd|]. rewrite Hh. js_eval.
Defined.

(** ** Histories that cannot throw *)

Lemma dispatch_keeps_content ev c :
  keeps_content ev = true -> contentRef (refs c) <> None ->
  exists c', dispatch ev c = Normal c' /\ contentRef (refs c') <> None.
Proof.
  intros Hev Hc. destruct ev; cbn.
  - destruct (scroll_listener c) as [env|]; eexists; (split; [reflexivity|]);
      [cbn; now rewrite (proj1 (handleThumbPosition_frame env (refs c)))
      | exact Hc].
  - destruct (observer c), (contentRef (refs c)) eqn:E; eexists;
      (split; [reflexivity|]); cbn; congruence.
  - eexists. split; [reflexivity|]. cbn. unfold handleTrackClick.
    destruct (scrollTrackRef (refs c)), (contentRef (refs c)) eqn:E;
      cbn; congruence.
  - eexists. split; [reflexivity|]. cbn. unfold handleScrollButton.
    destruct (contentRef (refs c)) eqn:E; cbn; congruence.
  - eexists. split; [reflexivity|]. exact Hc.
  - unfold handleThumbMouseMove.
    destruct (isDragging _);
      [destruct (contentRef (refs c)) eqn:E; [|contradiction]|];
      eexists; (split; [reflexivity|]); cbn; congruence.
  - eexists. split; [reflexivity|]. exact Hc.
  - cbn in Hev. eexists. split; [reflexivity|]. cbn.
    destruct (contentRef r); [discriminate | discriminate].
Qed.

(** X6.  As long as the content node stays attached, no event history
    throws: from a mount over an attached content, every history whose
    [browser] events keep a content node runs to completion, and the content
    is still attached at the end. *)
Theorem attached_content_never_throws r0 evs :
  contentRef r0 <> None -> forallb keeps_content evs = true ->
  exists c, run evs (mount r0) = Normal c /\ contentRef (refs c) <> None.
Proof.
  intros H0 Hevs.
  assert (Hm : contentRef (refs (mount r0)) <> None).
  { assert (E : refs (mount r0) = r0)
      by (unfold mount; now destruct (contentRef r0), (scrollTrackRef r0)).
    now rewrite E. }
  revert Hm. generalize (mount r0). clear H0.
  induction evs as [|ev rest IH]; intros c Hc.
  - exists c. now split.
  - cbn in Hevs. apply andb_prop in Hevs as [Hev Hrest].
    destruct (dispatch_keeps_content ev c Hev Hc) as (c1 & Hd & Hc1).
    destruct (IH Hrest c1 Hc1) as (c2 & Hrun & Hc2).
    exists c2. split; [|exact Hc2]. cbn. now rewrite Hd.
Qed.

Lemma attached_content_never_throws_witness :
  exists c,
    run [mousedown_thumb (pointer 100 (block 20 0));
         browser (mounted (element 0 0 0 0 0) (block 0 0) (block 20 0));
         resize; mousemove (pointer 500 (block 20 0)); scroll;
         click_track (pointer 3 (block 0 0)); mouseup] (mount page)
    = Normal c
    /\ contentRef (refs c) <> None.
Proof.
  apply attached_content_never_throws; [discriminate | reflexivity].
Defined.

Lemma dispatch_idle ev c :
  callbacks_inv c -> not_mousedown ev = true -> isDragging (state c) = false ->
  exists c', dispatch ev c = Normal c' /\ isDragging (state c') = false.
Proof.
  intros Hinv Hev Hc. destruct ev; cbn; try discriminate.
  - destruct (scroll_listener c); eexists; split; try reflexivity; exact Hc.
  - destruct (observer c), (contentRef (refs c)); eexists;
      split; try reflexivity; exact Hc.
  - eexists. split; [reflexivity | exact Hc].
  - eexists. split; [reflexivity | exact Hc].
  - destruct (inv_mouseMove c Hinv) as (Hd & _).
    rewrite handleThumbMouseMove_idle by congruence.
    eexists. split; [reflexivity | exact Hc].
  - eexists. split; [reflexivity|]. cbn. unfold handleThumbMouseup.
    destruct (isDragging (cb_handleThumbMouseup _)); [reflexivity | exact Hc].
  - eexists. split; [reflexivity | exact Hc].
Qed.

(** X7.  A fault needs a drag: a history without a press on the thumb runs
    to completion from any mount, attached or not, and leaves the component
    idle. *)
Theorem no_press_never_throws r0 evs :
  forallb not_mousedown evs = true ->
  exists c, run evs (mount r0) = Normal c /\ isDragging (state c) = false.
Proof.
  intros Hevs.
  assert (Hm : callbacks_inv (mount r0) /\ isDragging (state (mount r0)) = false).
  { split; [apply mount_inv|].
    unfold mount. now destruct (contentRef r0), (scrollTrackRef r0). }
  revert Hm. generalize (mount r0).
  induction evs as [|ev rest IH]; intros c [Hinv Hc].
  - exists c. now split.
  - cbn in Hevs. apply andb_prop in Hevs as [Hev Hrest].
    destruct (dispatch_idle ev c Hinv Hev Hc) as (c1 & Hd & Hc1).
    destruct (IH Hrest c1) as (c2 & Hrun & Hc2).
    { split; [eapply dispatch_inv; eassumption | exact Hc1]. }
    exists c2. split; [|exact Hc2]. cbn. now rewrite Hd.
Qed.

Lemma no_press_never_throws_witness :
  exists c,
    run [mousemove (pointer 10 (block 20 0)); browser unmounted;
         mousemove (pointer 50 (block 20 0)); mouseup; scroll; resize;
         click_track (pointer 5 (block 300 0)); click_button up]
      (mount unmounted)
    = Normal c
    /\ isDragging (state c) = false.
Proof. apply no_press_never_throws. reflexivity. Defined.

(** ** The drag session *)

Lemma set_refs_same c : set_refs (refs c) c = c.
Proof. now destruct c. Qed.

Lemma idle_move c e :
  callbacks_inv c -> isDragging (state c) = false ->
  dispatch (mousemove e) c = Normal c.
Proof.
  intros Hinv Hc. cbn. destruct (inv_mouseMove c Hinv) as (Hd & _).
  rewrite handleThumbMouseMove_idle by congruence.
  cbn. now rewrite set_refs_same.
Qed.

(** X8.  On every component an event history can produce, a pointer move
    outside a drag session changes nothing, and a release (mouseup, or
    mouseleave on the document) ends the session: it leaves the refs alone,
    the component is idle afterwards, and no later pointer move writes
    anything until the thumb is pressed again. *)
Theorem release_ends_drag c :
  reachable c ->
  (isDragging (state c) = false ->
   forall e, dispatch (mousemove e) c = Normal c)
  /\ exists c1,
       dispatch mouseup c = Normal c1
       /\ isDragging (state c1) = false
       /\ refs c1 = refs c
       /\ forall e, dispatch (mousemove e) c1 = Normal c1.
Proof.
  intros Hc. pose proof (reachable_inv c Hc) as Hinv. split.
  - intros Hidle e. now apply idle_move.
  - eexists. split; [reflexivity|].
    assert (Hidle : isDragging
                      (handleThumbMouseup (cb_handleThumbMouseup (callbacks c))
                         (state c)) = false).
    { unfold handleThumbMouseup. rewrite (inv_mouseup c Hinv).
      destruct (isDragging (state c)) eqn:E; [reflexivity | exact E]. }
    split; [exact Hidle|]. split; [reflexivity|].
    intros e. apply idle_move; [|exact Hidle].
    now apply (dispatch_inv mouseup c).
Qed.

Lemma release_ends_drag_witness :
  exists c1,
    dispatch mouseup
      (after [mousedown_thumb (pointer 100 (block 20 0))] page) = Normal c1
    /\ isDragging (state c1) = false
    /\ dispatch (mousemove (pointer 0 (block 20 0))) c1 = Normal c1.
Proof.
  destruct (proj2 (release_ends_drag
                     (after [mousedown_thumb (pointer 100 (block 20 0))] page)
                     (reachable_after _ page)))
    as (c1 & Hd & Hidle & _ & Hmove).
  exists c1. split; [exact Hd|]. split; [exact Hidle | apply Hmove].
Defined.

(** A press on an idle component gives the pointer-move handler a fresh
    closure: the state the press produced. *)
Lemma press_from_idle c e :
  callbacks_inv c -> isDragging (state c) = false ->
  exists c1,
    dispatch (mousedown_thumb e) c = Normal c1
    /\ refs c1 = refs c
    /\ state c1 = handleThumbMousedown e (refs c) (state c)
    /\ cb_handleThumbMouseMove (callbacks c1) = state c1.
Proof.
  intros Hinv Hidle. eexists. split; [reflexivity|].
  split; [reflexivity|]. split; [reflexivity|].
  cbn. unfold deps_handleThumbMouseMove.
  destruct (inv_mouseMove c Hinv) as (Hd & _). rewrite Hd, Hidle.
  unfold handleThumbMousedown.
  destruct (contentRef (refs c)); reflexivity.
Qed.

(** X9.  Press, then move.  From an idle component with the content
    attached, a press at pointer height [y0] followed by a move to [y]
    writes [min (scrollTop + (y - y0) * (offsetHeight / h),
                 scrollHeight - offsetHeight)]
    to the content, [scrollTop] being the offset at the press and [h] the
    current thumb height.  The written offset never exceeds
    [scrollHeight - offsetHeight], and a move back to the height of the
    press writes the offset the drag started from. *)
Theorem press_then_move c e0 e1 content (st oh sh h y0 y : Qc) :
  reachable c -> isDragging (state c) = false ->
  contentRef (refs c) = Some content ->
  scrollTop content = Num st -> offsetHeight content = Num oh ->
  scrollHeight content = Num sh -> thumbHeight (state c) = Num h ->
  clientY e0 = Num y0 -> clientY e1 = Num y ->
  exists c' written,
    run [mousedown_thumb e0; mousemove e1] c = Normal c'
    /\ content_requests (refs c')
       = assign_scrollTop (Num written) :: requests content
    /\ written = Spec.Qcmin (st + (y - y0) * (oh / h)) (sh - oh)
    /\ written <= sh - oh
    /\ (y = y0 -> st <= sh - oh -> written = st).
Proof.
  intros Hc Hidle Hco Hst Hoh Hsh Hh Hy0 Hy.
  pose proof (reachable_inv c Hc) as Hinv.
  assert (Hpos : 0 < h).
  { pose proof (reachable_thumbHeight_ok c Hc) as Hok. rewrite Hh in Hok.
    apply (Qclt_le_trans _ (Qc_of_Z 20)); [reflexivity | exact Hok]. }
  destruct (press_from_idle c e0 Hinv Hidle) as (c1 & Hd & Hr & Hs & Hcb).
  assert (Hs1 : state c1
                = setIsDragging true
                    (setInitialScrollTop (Num st)
                       (setScrollStartPosition (Num y0) (state c)))).
  { rewrite Hs. unfold handleThumbMousedown. now rewrite Hco, Hst, Hy0. }
  destruct (handleThumbMouseMove_dragging (state c1) e1 (refs c1) content
              y y0 oh h st sh) as [_ Hmove];
    try assumption; try (rewrite Hs1; cbn; congruence); try congruence.
  exists (set_refs
            (set_contentRef
               (request
                  (assign_scrollTop
                     (Num (Spec.Qcmin (st + (y - y0) * (oh / h)) (sh - oh))))
                  content) (refs c1)) c1),
    (Spec.Qcmin (st + (y - y0) * (oh / h)) (sh - oh)).
  split; [|split; [reflexivity|split; [reflexivity|split]]].
  - cbn [run bind]. rewrite Hd. cbn [bind dispatch]. rewrite Hcb, Hmove.
    reflexivity.
  - destruct (Qcmin_spec (st + (y - y0) * (oh / h)) (sh - oh))
      as [[H ->]|[_ ->]]; [exact H | apply Qcle_refl].
  - intros -> Hin.
    replace (st + (y0 - y0) * (oh / h)) with st
      by (field; now apply Qc_pos_neq).
    destruct (Qcmin_spec st (sh - oh)) as [[_ ->]|[H ->]];
      [reflexivity | now apply Qcle_antisym; [apply Qclt_le_weak|]].
Qed.

Lemma press_then_move_witness :
  exists c',
    run [mousedown_thumb (pointer 100 (block 20 0));
         mousemove (pointer 110 (block 20 0))] (mount page) = Normal c'
    /\ content_requests (refs c') = [assign_scrollTop (lit 500)].
Proof.
  destruct (press_then_move (mount page)
              (pointer 100 (block 20 0)) (pointer 110 (block 20 0))
              (element 400 1000 200 200 0)
              (Qc_of_Z 400) (Qc_of_Z 200) (Qc_of_Z 1000) (Qc_of_Z 20)
              (Qc_of_Z 100) (Qc_of_Z 110))
    as (c' & written & Hrun & Hreq & Hw & _);
    try reflexivity; try apply (reachable_after [] page).
  exists c'. split; [exact Hrun|]. rewrite Hreq, Hw.
  first [reflexivity | do 2 f_equal; js_eval].
Defined.

(** X10.  The pointer-move handler is memoised on [isDragging],
    [scrollStartPosition] and [thumbHeight], not on [initialScrollTop].  A
    press on the thumb while a drag is already active, at the pointer height
    the drag began at, therefore records the content's offset in the state
    but leaves the handler with its old closure: later moves are still
    measured from the offset of the first press. *)
Theorem repress_keeps_first_origin c e content :
  reachable c -> isDragging (state c) = true ->
  scrollStartPosition (state c) = Some (clientY e) ->
  contentRef (refs c) = Some content ->
  exists c',
    dispatch (mousedown_thumb e) c = Normal c'
    /\ initialScrollTop (state c') = scrollTop content
    /\ cb_handleThumbMouseMove (callbacks c')
       = cb_handleThumbMouseMove (callbacks c).
Proof.
  intros Hc Hdrag Hstart Hco. pose proof (reachable_inv c Hc) as Hinv.
  destruct (inv_mouseMove c Hinv) as (Hd & Hs & Hh).
  eexists. split; [reflexivity|]. split.
  - cbn. unfold handleThumbMousedown. now rewrite Hco.
  - cbn. unfold deps_handleThumbMouseMove, handleThumbMousedown.
    rewrite Hco. cbn. rewrite Hd, Hdrag, Hs, Hstart, Hh. cbn.
    now rewrite Object_is_refl, Object_is_refl.
Qed.

(** The drag begins at offset 400; the page then scrolls to 700 and the
    thumb is pressed again at the same height.  The state records 700, the
    next move still writes 400. *)
Lemma repress_keeps_first_origin_witness :
  let scrolled :=
    mounted (element 700 1000 200 200 0) (block 300 0) (block 20 0) in
  let c := after [mousedown_thumb (pointer 100 (block 20 0)); browser scrolled]
             page in
  exists c' c'',
    dispatch (mousedown_thumb (pointer 100 (block 20 0))) c = Normal c'
    /\ initialScrollTop (state c') = lit 700
    /\ dispatch (mousemove (pointer 100 (block 20 0))) c' = Normal c''
    /\ content_requests (refs c'') = [assign_scrollTop (lit 400)].
Proof.
  cbv zeta.
  destruct (repress_keeps_first_origin
              (after [mousedown_thumb (pointer 100 (block 20 0));
                      browser (mounted (element 700 1000 200 200 0)
                                 (block 300 0) (block 20 0))] page)
              (pointer 100 (block 20 0)) (element 700 1000 200 200 0)
              (reachable_after _ page) eq_refl eq_refl eq_refl)
    as (c' & Hd & Hi & _).
  exists c'. eexists. split; [exact Hd|]. split; [exact Hi|].
  cbn in Hd. inversion Hd; subst. split; [reflexivity|].
  cbn. first [reflexivity | do 2 f_equal; js_eval].
Defined.

Lemma Qcmin_mono (a b m : Qc) : a <= b -> Spec.Qcmin a m <= Spec.Qcmin b m.
Proof.
  intros Hab.
  destruct (Qcmin_spec a m) as [[Ha ->]|[Ha ->]];
    destruct (Qcmin_spec b m) as [[Hb ->]|[Hb ->]];
    try assumption; try apply Qcle_refl.
  apply Qclt_le_weak. now apply (Qclt_le_trans _ a).
Qed.

Lemma scale_nonneg (oh h : Qc) : 0 <= oh -> 0 < h -> 0 <= oh / h.
Proof.
  intros Hoh Hh. replace 0 with (0 / h) by (field; now apply Qc_pos_neq).
  unfold Qcdiv. apply Qcmult_le_compat_r; [exact Hoh|].
  apply Qclt_le_weak. now apply Qcinv_pos.
Qed.

(** X11.  During a drag the written offset follows the pointer: with a
    thumb height [h > 0] and a content of non-negative offsetHeight, a
    pointer further down the page never writes a smaller offset than a
    pointer further up. *)
Theorem drag_follows_pointer env e1 e2 r content (y1 y2 y0 oh h i sh : Qc) :
  isDragging env = true -> contentRef r = Some content ->
  clientY e1 = Num y1 -> clientY e2 = Num y2 ->
  scrollStartPosition env = Some (Num y0) ->
  offsetHeight content = Num oh -> 0 <= oh ->
  thumbHeight env = Num h -> 0 < h ->
  initialScrollTop env = Num i -> scrollHeight content = Num sh ->
  y1 <= y2 ->
  exists r1 r2 w1 w2,
    handleThumbMouseMove env e1 r = Normal r1
    /\ content_requests r1 = assign_scrollTop (Num w1) :: requests content
    /\ handleThumbMouseMove env e2 r = Normal r2
    /\ content_requests r2 = assign_scrollTop (Num w2) :: requests content
    /\ w1 <= w2.
Proof.
  intros Hd Hco Hy1 Hy2 Hy0 Hoh Hoh0 Hh Hpos Hi Hsh Hle.
  destruct (handleThumbMouseMove_dragging env e1 r content y1 y0 oh h i sh)
    as [_ H1]; try assumption.
  destruct (handleThumbMouseMove_dragging env e2 r content y2 y0 oh h i sh)
    as [_ H2]; try assumption.
  do 4 eexists. split; [exact H1|]. split; [reflexivity|].
  split; [exact H2|]. split; [reflexivity|].
  apply Qcmin_mono.
  assert (Hk : (y1 - y0) * (oh / h) <= (y2 - y0) * (oh / h)).
  { apply Qcmult_le_compat_r; [qc_lra | now apply scale_nonneg]. }
  revert Hk. generalize ((y1 - y0) * (oh / h)), ((y2 - y0) * (oh / h)).
  intros a b Hk. qc_lra.
Qed.

Lemma drag_follows_pointer_witness :
  exists w1 w2,
    content_requests
      (match handleThumbMouseMove (dragging 100 400 20)
               (pointer 90 (block 20 0)) page
       with Normal r1 => r1 | TypeError => unmounted end)
    = [assign_scrollTop (Num w1)]
    /\ content_requests
         (match handleThumbMouseMove (dragging 100 400 20)
                  (pointer 130 (block 20 0)) page
          with Normal r2 => r2 | TypeError => unmounted end)
       = [assign_scrollTop (Num w2)]
    /\ w1 <= w2.
Proof.
  destruct (drag_follows_pointer (dragging 100 400 20)
              (pointer 90 (block 20 0)) (pointer 130 (block 20 0)) page
              (element 400 1000 200 200 0)
              (Qc_of_Z 90) (Qc_of_Z 130) (Qc_of_Z 100) (Qc_of_Z 200)
              (Qc_of_Z 20) (Qc_of_Z 400) (Qc_of_Z 1000))
    as (r1 & r2 & w1 & w2 & H1 & Hq1 & H2 & Hq2 & Hle);
    try reflexivity; try (vm_compute; discriminate).
  exists w1, w2. rewrite H1, H2. now split; [|split].
Defined.

(** ** Order *)

Lemma Qc_of_Z_mono (a b : Z) : (a <= b)%Z -> Qc_of_Z a <= Qc_of_Z b.
Proof.
  intros H. unfold Qcle, Qc_of_Z, Q2Qc; cbn [this].
  rewrite !Qred_correct. rewrite <- Zle_Qle. exact H.
Qed.

(** X13.  The track click is order-preserving: on a track of positive
    height and a measured content, a click further down the track never
    asks for a smaller offset. *)
Theorem track_click_monotone env e1 e2 r trackCurrent contentCurrent
    (y1 y2 top t h sh : Qc) :
  scrollTrackRef r = Some trackCurrent -> contentRef r = Some contentCurrent ->
  0 < t -> 0 < sh ->
  clientY e1 = Num y1 -> clientY e2 = Num y2 ->
  rect_top (target e1) = Num top -> rect_top (target e2) = Num top ->
  clientHeight trackCurrent = Num t -> thumbHeight env = Num h ->
  scrollHeight contentCurrent = Num sh ->
  y1 <= y2 ->
  exists a1 a2,
    content_requests (handleTrackClick env e1 r)
    = scrollTo (Num a1) smooth :: requests contentCurrent
    /\ content_requests (handleTrackClick env e2 r)
       = scrollTo (Num a2) smooth :: requests contentCurrent
    /\ a1 <= a2.
Proof.
  intros Htr Hco Ht Hsh Hy1 Hy2 Ht1 Ht2 Hth Hh Hs Hle.
  exists (Spec.trackClickToContentOffset y1 top t h sh),
    (Spec.trackClickToContentOffset y2 top t h sh).
  split; [|split].
  - now rewrite (handleTrackClick_mounted env e1 r trackCurrent contentCurrent
                   y1 top t h sh).
  - now rewrite (handleTrackClick_mounted env e2 r trackCurrent contentCurrent
                   y2 top t h sh).
  - unfold Spec.trackClickToContentOffset.
    apply Qc_of_Z_mono, Qfloor_resp_le.
    change ((y1 - top - h / Qc_of_Z 2) / t * sh
            <= (y2 - top - h / Qc_of_Z 2) / t * sh).
    apply proportional_offset_mono; [exact Ht | exact Hsh |].
    generalize (h / Qc_of_Z 2). intros half. qc_lra.
Qed.

Lemma track_click_monotone_witness :
  exists a1 a2,
    content_requests
      (handleTrackClick initial_scope (pointer 5 (block 300 0)) page)
    = [scrollTo (Num a1) smooth]
    /\ content_requests
         (handleTrackClick initial_scope (pointer 150 (block 300 0)) page)
       = [scrollTo (Num a2) smooth]
    /\ a1 <= a2.
Proof.
  apply (track_click_monotone initial_scope
           (pointer 5 (block 300 0)) (pointer 150 (block 300 0)) page
           (block 300 0) (element 400 1000 200 200 0)
           (Qc_of_Z 5) (Qc_of_Z 150) (Qc_of_Z 0) (Qc_of_Z 300) (Qc_of_Z 20)
           (Qc_of_Z 1000));
    try reflexivity; vm_compute; discriminate.
Defined.

(** X14.  The thumb follows the content: for a handler whose thumb height
    [h] fits the track, a measured content and offsets
    [0 <= scrollTop1 <= scrollTop2], the tops written are ordered the same
    way and lie between 0 and [trackHeight - h]. *)
Theorem thumb_follows_scroll env content1 content2 track thumb
    (st1 st2 sh t h : Qc) :
  0 < sh -> 0 < t -> h <= t ->
  scrollTop content1 = Num st1 -> scrollTop content2 = Num st2 ->
  scrollHeight content1 = Num sh -> scrollHeight content2 = Num sh ->
  clientHeight track = Num t -> thumbHeight env = Num h ->
  0 <= st1 -> st1 <= st2 ->
  exists top1 top2,
    option_map style_top
      (scrollThumbRef (handleThumbPosition env (mounted content1 track thumb)))
    = Some (Some (Num top1))
    /\ option_map style_top
         (scrollThumbRef
            (handleThumbPosition env (mounted content2 track thumb)))
       = Some (Some (Num top2))
    /\ 0 <= top1 /\ top1 <= top2 /\ top2 <= t - h.
Proof.
  intros Hsh Ht Hht Hst1 Hst2 Hs1 Hs2 Htr Hh H0 Hle.
  exists (Spec.Qcmin (st1 / sh * t) (t - h)),
    (Spec.Qcmin (st2 / sh * t) (t - h)).
  split; [|split; [|split; [|split]]].
  - now rewrite (handleThumbPosition_mounted env content1 track thumb
                   st1 sh t h).
  - now rewrite (handleThumbPosition_mounted env content2 track thumb
                   st2 sh t h).
  - pose proof (proportional_offset_nonneg st1 sh t Hsh Ht H0) as Hx.
    destruct (Qcmin_spec (st1 / sh * t) (t - h)) as [[_ ->]|[_ ->]];
      [exact Hx | qc_lra].
  - apply Qcmin_mono. now apply proportional_offset_mono.
  - destruct (Qcmin_spec (st2 / sh * t) (t - h)) as [[H ->]|[_ ->]];
      [exact H | apply Qcle_refl].
Qed.

Lemma thumb_follows_scroll_witness :
  exists top1 top2,
    option_map style_top
      (scrollThumbRef
         (handleThumbPosition initial_scope
            (mounted (element 100 1000 200 200 0) (block 300 0) (block 20 0))))
    = Some (Some (Num top1))
    /\ option_map style_top
         (scrollThumbRef
            (handleThumbPosition initial_scope
               (mounted (element 800 1000 200 200 0) (block 300 0)
                  (block 20 0))))
       = Some (Some (Num top2))
    /\ 0 <= top1 /\ top1 <= top2 /\ top2 <= Qc_of_Z 300 - Qc_of_Z 20.
Proof.
  apply (thumb_follows_scroll initial_scope
           (element 100 1000 200 200 0) (element 800 1000 200 200 0)
           (block 300 0) (block 20 0)
           (Qc_of_Z 100) (Qc_of_Z 800) (Qc_of_Z 1000) (Qc_of_Z 300)
           (Qc_of_Z 20));
    try reflexivity; vm_compute; discriminate.
Defined.
